(** * pms5003: frame synchronisation, validation, decoding and averaging

    A shallow embedding of [src/pms5003.c], the reader for the PMS5003
    particulate-matter sensor, and the properties of its frame engine.

    Conventions of the embedding.
    - A byte of the serial line is a [byte] (256 constructors), its numeric
      value is [byte_val].
    - An [unsigned short] is a [Z] in [0, 65536); a [size_t] is a [Z] with its
      wrap-around at [2^64] written out.
    - A [double] is a primitive binary64 [float]; [+=] and [/=] are
      [PrimFloat.add] and [PrimFloat.div]; an integer is converted with
      round-to-nearest-even ([double_of_Z]).
    - The host is little-endian (the program byte-swaps every word it reads
      unconditionally, so this is the only host on which the length test
      [data[0] == 28] can succeed on a real frame).
    - The serial line, the read failures of [read(2)] and the delivery of
      [SIGALRM] are a list of [event]s: an [Alarm] is a signal taken while the
      process is in a [read]. The handler is installed without a mask, so a
      signal can also arrive between two statements of the update of lines
      171-175; the globals it then finds are [interrupted_accumulate].
    - [exit] ends the run with the status the parent process observes. *)

From Stdlib Require Import ZArith Lia Bool String Floats.
From Stdlib Require Import Strings.Byte List Permutation.
Import ListNotations.
Local Open Scope Z_scope.

(** ** Bytes and 16-bit words *)

Definition byte_val (b : byte) : Z := Z.of_N (Byte.to_N b).

(** The value of an [unsigned short] stored at two consecutive addresses
    [lo], [hi] of a little-endian host. *)
Definition load_u16 (lo hi : byte) : Z :=
  Z.lor (byte_val lo) (Z.shiftl (byte_val hi) 8).

(** [unsigned short data[15]] seen through the buffer that [forced_read]
    filled: consecutive pairs of bytes. *)
Fixpoint shorts_of_bytes (bs : list byte) : list Z :=
  match bs with
  | lo :: hi :: rest => load_u16 lo hi :: shorts_of_bytes rest
  | _ => []
  end.

(** [__bswap_16] of <byteswap.h>. *)
Definition bswap_16 (x : Z) : Z :=
  Z.lor (Z.land (Z.shiftr x 8) 255) (Z.shiftl (Z.land x 255) 8).

(** The byte at offset [i] of the word array viewed as unsigned chars (the
    cast in line 166): byte [i] of its memory image, low byte first. *)
Definition uchar_at (data : list Z) (i : nat) : Z :=
  let w := nth (Nat.div i 2) data 0 in
  if Nat.even i then Z.land w 255 else Z.land (Z.shiftr w 8) 255.

(** ** [size_t] arithmetic *)

Definition SIZE_MAX1 : Z := 2 ^ 64.

Definition size_t_add (a b : Z) : Z := (a + b) mod SIZE_MAX1.

(** ** Frame validation (main, lines 154-168) *)

(** [sizeof(data)] and [sizeof(data[0])] for [unsigned short data[15]]. *)
Definition sizeof_data : nat := 30.
Definition sizeof_data0 : nat := 2.

(** Lines 155-157: the block read after the marker, every word swapped. *)
Definition swapped_words (buf : list byte) : list Z :=
  map bswap_16 (shorts_of_bytes buf).

(** Lines 164-166: [check_sum = 0x42 + 0x4d; for (i < 28) check_sum += bytes[i]]. *)
Definition check_sum (data : list Z) : Z :=
  fold_left (fun acc i => size_t_add acc (uchar_at data i))
            (seq 0 (sizeof_data - sizeof_data0)) (0x42 + 0x4d).

(** Line 160: the frame passes the length test. *)
Definition length_ok (data : list Z) : bool := nth 0 data 0 =? 2 * 13 + 2.

(** Line 167: the frame passes the checksum test. *)
Definition sum_ok (data : list Z) : bool := check_sum data =? nth 14 data 0.

(** Both tests, in the order of the two [continue] statements. *)
Definition frame_ok (data : list Z) : bool :=
  if negb (length_ok data) then false
  else if negb (sum_ok data) then false
  else true.

(** ** The protocol's words for a frame, on the wire bytes *)

(** Big-endian value of two wire bytes. *)
Definition be16 (hi lo : byte) : Z := 256 * byte_val hi + byte_val lo.

Definition wire_sum (bs : list byte) : Z :=
  fold_right (fun b acc => byte_val b + acc) 0 bs.

(** Field [k] (0-based) of the 30 bytes that follow the marker. *)
Definition wire_field (buf : list byte) (k : nat) : Z :=
  be16 (nth (2 * k) buf x00) (nth (2 * k + 1) buf x00).

(** The sum the protocol prescribes: the two marker bytes and every byte
    of the frame but the last two, modulo 65536. *)
Definition wire_checksum (buf : list byte) : Z :=
  (0x42 + 0x4d + wire_sum (firstn 28 buf)) mod 65536.

Definition wire_valid (buf : list byte) : bool :=
  (wire_field buf 0 =? 28) && (wire_field buf 14 =? wire_checksum buf).

(** ** Doubles *)

(** Conversion of an integer to [double], rounding to nearest even. It is
    exact on every [unsigned short]. *)
Definition double_of_Z (z : Z) : float :=
  SF2Prim (binary_normalize prec emax z 0 false).

(** ** Output records *)

(** One printf conversion of [print_data]: ["%.<precision>f"] of a double, or
    ["%lu"] of a [size_t]. *)
Inductive conversion : Type :=
| Fixed (precision : nat) (v : float)
| Unsigned (n : Z).

(** What one call of [print_data] writes to stdout: the keys of the object
    in the order they are printed, each with the conversion of its value. *)
Definition record : Type := list (string * conversion).

(** What the program writes to stderr. *)
Inductive diagnostic : Type :=
| fatal_read (num_read count : nat)
| warning_no_data_frames.

(** ** Program state: the globals [avg_sum] and [avg_num] (lines 100-102) *)

Record state : Type := mkState {
  avg_sum : list float;
  avg_num : Z
}.

Definition initial_state : state :=
  {| avg_sum := repeat 0%float 12; avg_num := 0 |}.

(** [sizeof(avg_sum) / sizeof(avg_sum[0])]. *)
Definition avg_len : nat := 12.

(** ** The byte source *)

(** What the process meets when it calls [read]: a byte of the line, a
    failed read ([read] returning less than 1), or the alarm signal armed by
    [alarm(average_over)]. *)
Inductive event : Type :=
| Data (b : byte)
| ReadError
| Alarm.

Inductive stop_reason : Type :=
| Starved                          (* nothing more on the line: blocked in read *)
| ReadFailed (num_read count : nat) (* forced_read prints and calls exit(-1) *)
| Signalled.                       (* SIGALRM delivered: the handler runs *)

Inductive read_result : Type :=
| Got (buf : list byte) (rest : list event)
| NoRead (why : stop_reason).

(** [forced_read] (lines 57-71): exactly [count] bytes, or no return. The
    program calls it with a count of 1 and of 30 only. *)
Fixpoint forced_read_from (num_read : nat) (src : list event) (todo count : nat)
         {struct todo} : read_result :=
  match todo with
  | O => Got [] src
  | S todo' =>
    match src with
    | [] => NoRead Starved
    | Data b :: rest =>
      match forced_read_from (S num_read) rest todo' count with
      | Got bs rest' => Got (b :: bs) rest'
      | NoRead why => NoRead why
      end
    | ReadError :: _ => NoRead (ReadFailed num_read count)
    | Alarm :: _ => NoRead Signalled
    end
  end.

Definition forced_read (src : list event) (count : nat) : read_result :=
  forced_read_from 0 src count count.

(** The status a parent sees after [exit(code)]. *)
Definition exit_status (code : Z) : Z := Z.land code 255.

(** How a run ends: still blocked in [read] with everything consumed, or
    exited with a status, after the records on stdout and the lines on stderr. *)
Inductive outcome : Type :=
| Blocked (st : state) (out : list record)
| Exited (status : Z) (out : list record) (err : list diagnostic).

(** One turn of the [for (;;)] of [main]. *)
Inductive step : Type :=
| Next (st : state) (emitted : list record) (rest : list event)
| Stop (why : stop_reason).

Section Program.

(** The build-time sensor variant (line 12). *)
Variable T_VERSION : Z.

(** The clock: [elapsed n] is [difftime(current_time, start_time)] at the
    call of [print_data] that follows [n] earlier ones. *)
Variable elapsed : nat -> float.

Local Open Scope string_scope.

Definition DATA11_STRING : string :=
  if (T_VERSION =? 0)%Z then "count_5um" else "temperature".

Definition DATA12_STRING : string :=
  if (T_VERSION =? 0)%Z then "count_10um" else "humidity".

Definition labels : list string :=
  [ "std_pm1"; "std_pm2_5"; "std_pm10";
    "atm_pm1"; "atm_pm2_5"; "atm_pm10";
    "count_0_3um"; "count_0_5um"; "count_1um";
    "count_2_5um"; DATA11_STRING; DATA12_STRING ].

(** Lines 89-92: under [T_VERSION == 1] entries 10 and 11 are divided by 10. *)
Definition scaled (data : list float) (i : nat) : float :=
  if ((T_VERSION =? 1)%Z && (Nat.eqb i 10 || Nat.eqb i 11))%bool
  then (nth i data 0 / 10)%float
  else nth i data 0%float.

(** [print_data] (lines 75-98). The loop of line 94 runs [i] from 3 to 11. *)
Definition print_data (diff_time : float) (num_measurements : Z)
           (data : list float) : record :=
  ("timestamp", Fixed 1 diff_time)
    :: ("num_measurements", Unsigned num_measurements)
    :: map (fun i => (nth i labels EmptyString, Fixed 2 (scaled data i))) (seq 3 (12 - 3)).

Local Close Scope string_scope.

(** [sigalrm_handler] (lines 104-116); [n] records were printed before. *)
Definition sigalrm_handler (n : nat) (st : state) (out : list record) : outcome :=
  if avg_num st >? 0 then
    let avg_sum' :=
      map (fun i => (nth i (avg_sum st) 0 / double_of_Z (avg_num st))%float)
          (seq 0 avg_len) in
    Exited (exit_status 0) (out ++ [print_data (elapsed n) (avg_num st) avg_sum']) []
  else
    Exited (exit_status (-1)) out [warning_no_data_frames].

(** Lines 170-172: [data_fp[i] = data[i + 1]]. *)
Definition decode (data : list Z) : list float :=
  map (fun i => double_of_Z (nth (i + 1) data 0)) (seq 0 avg_len).

(** Lines 171-175: [avg_sum[i] += data_fp[i]] for the 12 entries, then
    [avg_num++]. *)
Definition accumulate (st : state) (data_fp : list float) : state :=
  {| avg_sum := map (fun i => (nth i (avg_sum st) 0 + nth i data_fp 0)%float)
                    (seq 0 avg_len);
     avg_num := size_t_add (avg_num st) 1 |}.

(** The command line: 0 when no averaging window was given (line 127). *)
Variable average_over : Z.

(** The body of the [for (;;)] (lines 146-179), [n] records printed so far. *)
Definition iteration (n : nat) (st : state) (src : list event) : step :=
  match forced_read src 1 with
  | NoRead why => Stop why
  | Got ch src1 =>
    if negb (byte_val (hd x00 ch) =? 0x42) then Next st [] src1 else
    match forced_read src1 1 with
    | NoRead why => Stop why
    | Got ch' src2 =>
      if negb (byte_val (hd x00 ch') =? 0x4d) then Next st [] src2 else
      match forced_read src2 sizeof_data with
      | NoRead why => Stop why
      | Got buf src3 =>
        let data := swapped_words buf in
        if negb (length_ok data) then Next st [] src3 else
        if negb (sum_ok data) then Next st [] src3 else
        let data_fp := decode data in
        let st' := accumulate st data_fp in
        if average_over =? 0
        then Next st' [print_data (elapsed n) 1 data_fp] src3
        else Next st' [] src3
      end
    end
  end.

(** The loop of [main]; every turn consumes an event or ends the run, so
    [fuel] beyond the length of the source is never used up. *)
Fixpoint main_loop (fuel : nat) (st : state) (out : list record)
         (src : list event) : option outcome :=
  match fuel with
  | O => None
  | S fuel' =>
    match iteration (length out) st src with
    | Next st' emitted rest => main_loop fuel' st' (out ++ emitted) rest
    | Stop Starved => Some (Blocked st out)
    | Stop (ReadFailed num_read count) =>
      Some (Exited (exit_status (-1)) out [fatal_read num_read count])
    | Stop Signalled => Some (sigalrm_handler (length out) st out)
    end
  end.

(** The run from a given state over a given source. *)
Definition run (st : state) (out : list record) (src : list event)
  : option outcome :=
  main_loop (S (length src)) st out src.

(** [main] after its set-up (lines 145-180), from the initial globals. *)
Definition main (src : list event) : option outcome :=
  run initial_state [] src.

End Program.

(** ** Streams of frames *)

(** A block of 30 bytes on the line, after its marker and after [garbage]. *)
Definition framed (garbage buf : list byte) : list event :=
  map Data garbage ++ Data x42 :: Data x4d :: map Data buf.

(** A byte of a block replaced by another. *)
Definition corrupt (buf : list byte) (i : nat) (b : byte) : list byte :=
  firstn i buf ++ b :: skipn (S i) buf.

(** The measurement a block of 30 bytes decodes to. *)
Definition measurement (buf : list byte) : list float :=
  decode (swapped_words buf).

(** A block of the line with what precedes it: garbage without any 0x42,
    then the marker, then 30 bytes. The block may pass the two tests or not. *)
Definition well_framed (f : list byte * list byte) : Prop :=
  Forall (fun b => byte_val b <> 0x42) (fst f) /\ length (snd f) = 30%nat.

(** Blocks on the line one after the other, each behind its own garbage. *)
Definition stream (fs : list (list byte * list byte)) : list event :=
  flat_map (fun f => framed (fst f) (snd f)) fs.

(** The measurements of the blocks of a stream that pass the two tests, in
    the order of arrival. *)
Definition accepted (fs : list (list byte * list byte)) : list (list float) :=
  map (fun f => measurement (snd f))
      (filter (fun f => frame_ok (swapped_words (snd f))) fs).

(** The state after measurements have been folded in. *)
Definition accumulated (ms : list (list float)) (st : state) : state :=
  fold_left accumulate ms st.



(** The scaling of the temperature and humidity of the T variant. *)
Definition variant_scale (T_VERSION : Z) (i : nat) (v : float) : float :=
  if ((T_VERSION =? 1) && (Nat.eqb i 10 || Nat.eqb i 11))%bool
  then (v / 10)%float else v.

(** The byte of a given value. *)
Definition byte_of (z : Z) : byte :=
  match Byte.of_N (Z.to_N z) with Some b => b | None => x00 end.

(** A block completed by the checksum the protocol prescribes for it. *)
Definition with_checksum (body : list byte) : list byte :=
  let c := (0x42 + 0x4d + wire_sum body) mod 65536 in
  body ++ [byte_of (c / 256); byte_of (c mod 256)].

(** The frame of the concrete scenario: length 28, the twelve data words
    5, 10, 15, 20, 25, 30, 2, 3, 4, 5, 200, 50, and the reserved word [r1 r2]. *)
Definition scenario_body (r1 r2 : byte) : list byte :=
  [ x00; x1c; x00; x05; x00; x0a; x00; x0f; x00; x14; x00; x19; x00; x1e;
    x00; x02; x00; x03; x00; x04; x00; x05; x00; xc8; x00; x32; r1; r2 ].

Definition scenario_frame (r1 r2 : byte) : list byte :=
  with_checksum (scenario_body r1 r2).

(** Two frames with 10 and 20 for atm_pm2_5, a rejected block between them. *)
Definition pm25_frame (lo : byte) : list byte :=
  with_checksum
    [ x00; x1c; x00; x01; x00; x02; x00; x03; x00; x04; x00; lo; x00; x06;
      x00; x00; x00; x00; x00; x00; x00; x00; x00; x00; x00; x00; x00; x00 ].

Definition pm25_stream : list (list byte * list byte) :=
  [ ([x00; x4d], pm25_frame x0a);
    ([], corrupt (pm25_frame x0a) 7 xff);
    ([xff], pm25_frame x14) ].

(** The clock of the examples: always at zero. *)
Definition still_clock : nat -> float := fun _ => 0%float.

(** ** What the scanner does with arbitrary bytes *)

(** Garbage that lines 147-152 consume in whole turns: each turn drops one
    byte other than 0x42, or a 0x42 together with the byte after it when that
    byte is not 0x4D. *)
Fixpoint skipped (g : list byte) : bool :=
  match g with
  | [] => true
  | b :: r =>
    if negb (byte_val b =? 0x42) then skipped r
    else match r with
         | [] => false
         | c :: r' => if negb (byte_val c =? 0x4d) then skipped r' else false
         end
  end.






(** ** Records of a run without an averaging window *)

(** The records printed for measurements [ms] when [n] records were printed
    before: one for each, in order, each with 1 as its number of measurements. *)
Definition streamed (T_VERSION : Z) (elapsed : nat -> float) (n : nat)
           (ms : list (list float)) : list record :=
  map (fun p => print_data T_VERSION (elapsed (fst p)) 1 (snd p))
      (combine (seq n (length ms)) ms).

(** A source on which no read fails and no alarm is delivered. *)
Definition is_data (e : event) : Prop :=
  match e with Data _ => True | _ => False end.

(** What a read meets when event [e] cuts the source short after [num_read]
    bytes of the [count] asked for. *)
Definition cut_read (e : event) (num_read count : nat) : stop_reason :=
  match e with
  | Alarm => Signalled
  | _ => ReadFailed num_read count
  end.

(** ** Back from a double to an integer *)

(** The integer a finite double with a non-negative exponent stands for. *)
Definition Z_of_double (f : float) : Z :=
  match Prim2SF f with
  | S754_finite false m e => Z.shiftl (Z.pos m) e
  | S754_finite true m e => - Z.shiftl (Z.pos m) e
  | _ => 0
  end.

(** [f] holds on every integer of [z * 2^n, (z + 1) * 2^n). *)
Fixpoint all_below (n : nat) (z : Z) (f : Z -> bool) : bool :=
  match n with
  | O => f z
  | S n' => all_below n' (2 * z) f && all_below n' (2 * z + 1) f
  end.

(** ** Serial line settings (lines 22-55) *)

(** Conversion to [tcflag_t] or [speed_t], unsigned 32-bit integers. *)
Definition tcflag (z : Z) : Z := z mod 2 ^ 32.

(** [x |= m] and [x &= ~m] on a [tcflag_t]. *)
Definition flag_set (x m : Z) : Z := tcflag (Z.lor x m).
Definition flag_clear (x m : Z) : Z := tcflag (Z.land x (Z.lnot m)).

(** The fields of [struct termios] the program touches. *)
Record termios : Type := mkTermios {
  c_iflag : Z;
  c_oflag : Z;
  c_cflag : Z;
  c_lflag : Z;
  c_cc : nat -> Z
}.

(** The macros of <termios.h> the program names; their values are the
    platform's. *)
Record termios_h : Type := mkTermiosH {
  CLOCAL : Z; CREAD : Z; CSIZE : Z; CS8 : Z; PARENB : Z; CSTOPB : Z;
  CRTSCTS : Z;
  IGNBRK : Z; BRKINT : Z; PARMRK : Z; ISTRIP : Z; INLCR : Z; IGNCR : Z;
  ICRNL : Z; IXON : Z;
  ECHO : Z; ECHONL : Z; ICANON : Z; ISIG : Z; IEXTEN : Z;
  OPOST : Z;
  VMIN : nat; VTIME : nat;
  B9600 : Z
}.

(** Their values on Linux (asm-generic/termbits.h). *)
Definition linux_termios_h : termios_h :=
  {| CLOCAL := 2048; CREAD := 128; CSIZE := 48; CS8 := 48; PARENB := 256;
     CSTOPB := 64; CRTSCTS := 2147483648;
     IGNBRK := 1; BRKINT := 2; PARMRK := 8; ISTRIP := 32; INLCR := 64;
     IGNCR := 128; ICRNL := 256; IXON := 1024;
     ECHO := 8; ECHONL := 64; ICANON := 2; ISIG := 1; IEXTEN := 32768;
     OPOST := 1;
     VMIN := 6; VTIME := 5;
     B9600 := 13 |}.

(** What the program relies on in the layout of [c_cflag]: CS8, CLOCAL and
    CREAD are 32-bit values, CS8 lies within the mask CSIZE, and the bits
    cleared after CS8, CLOCAL and CREAD are set do not overlap them. *)
Definition cflag_layout (H : termios_h) : Prop :=
  0 <= CS8 H < 2 ^ 32
  /\ 0 <= Z.lor (CLOCAL H) (CREAD H) < 2 ^ 32
  /\ Z.land (CS8 H) (CSIZE H) = CS8 H
  /\ Z.land (CS8 H) (Z.lor (Z.lor (PARENB H) (CSTOPB H)) (CRTSCTS H)) = 0
  /\ Z.land (Z.lor (CLOCAL H) (CREAD H))
            (Z.lor (Z.lor (Z.lor (CSIZE H) (PARENB H)) (CSTOPB H)) (CRTSCTS H))
     = 0.

(** What the set-up of [main] writes to stderr before it exits. *)
Inductive startup_diagnostic : Type :=
| usage
| fatal_open
| fatal_tcgetattr
| fatal_tcsetattr.

Inductive attribs_result : Type :=
| AttribsExit (status : Z) (err : startup_diagnostic)
| AttribsSet (tty : termios).

(** The command line and the answers of the system calls of the set-up:
    [argc], the value [atoi] gives for [argv[2]], the descriptor [open]
    returns, what [tcgetattr] stores (nothing when it returns a negative
    value) and the value [tcsetattr] returns. *)
Record invocation : Type := mkInvocation {
  argc : Z;
  atoi_argv2 : Z;
  open_fd : Z;
  tcgetattr_result : option termios;
  tcsetattr_result : termios -> Z
}.

(** How the set-up ends: an exit, or the loop entered with [average_over],
    the seconds of the pending alarm (0 when none is pending), whether the
    handler is installed, and the settings of the line. *)
Inductive startup_result : Type :=
| StartupExit (status : Z) (err : startup_diagnostic)
| Started (average_over : Z) (alarm_seconds : Z) (handler_installed : bool)
          (tty : termios).

Section Termios.

Variable H : termios_h.

(** [cfsetospeed] and [cfsetispeed] of the C library. *)
Variable cfsetospeed : termios -> Z -> termios.
Variable cfsetispeed : termios -> Z -> termios.

Local Infix "|'" := Z.lor (at level 50, left associativity).

(** Lines 34-49: the assignments to the fields of [tty]. *)
Definition raw_8n1 (tty : termios) : termios :=
  let cflag := flag_set (c_cflag tty) (CLOCAL H |' CREAD H) in
  let cflag := flag_clear cflag (CSIZE H) in
  let cflag := flag_set cflag (CS8 H) in
  let cflag := flag_clear cflag (PARENB H) in
  let cflag := flag_clear cflag (CSTOPB H) in
  let cflag := flag_clear cflag (CRTSCTS H) in
  let iflag :=
    flag_clear (c_iflag tty)
               (IGNBRK H |' BRKINT H |' PARMRK H |' ISTRIP H |' INLCR H
                |' IGNCR H |' ICRNL H |' IXON H) in
  let lflag :=
    flag_clear (c_lflag tty)
               (ECHO H |' ECHONL H |' ICANON H |' ISIG H |' IEXTEN H) in
  let oflag := flag_clear (c_oflag tty) (OPOST H) in
  let cc := fun i => if Nat.eqb i (VMIN H) then 1 else c_cc tty i in
  let cc := fun i => if Nat.eqb i (VTIME H) then 1 else cc i in
  {| c_iflag := iflag; c_oflag := oflag; c_cflag := cflag; c_lflag := lflag;
     c_cc := cc |}.

(** [set_interface_attribs] (lines 22-55). *)
Definition set_interface_attribs (tcgetattr : option termios)
           (tcsetattr : termios -> Z) (speed : Z) : attribs_result :=
  match tcgetattr with
  | None => AttribsExit (exit_status (-1)) fatal_tcgetattr
  | Some tty =>
    let tty := cfsetospeed tty (tcflag speed) in
    let tty := cfsetispeed tty (tcflag speed) in
    let tty := raw_8n1 tty in
    if negb (tcsetattr tty =? 0)
    then AttribsExit (exit_status (-1)) fatal_tcsetattr
    else AttribsSet tty
  end.

(** The set-up of [main] (lines 120-144). [average_over] is a [size_t] and
    the argument of [alarm] an [unsigned int]. *)
Definition startup (inv : invocation) : startup_result :=
  if negb (argc inv =? 2) && negb (argc inv =? 3)
  then StartupExit (exit_status (-1)) usage
  else
    let average_over :=
      if argc inv =? 3 then atoi_argv2 inv mod SIZE_MAX1 else 0 in
    let handler_installed := argc inv =? 3 in
    let alarm_seconds :=
      if argc inv =? 3 then average_over mod 2 ^ 32 else 0 in
    if open_fd inv <? 0
    then StartupExit (exit_status (-1)) fatal_open
    else
      match set_interface_attribs (tcgetattr_result inv) (tcsetattr_result inv)
                                  (B9600 H) with
      | AttribsExit status err => StartupExit status err
      | AttribsSet tty =>
        Started average_over alarm_seconds handler_installed tty
      end.

End Termios.

(** ** Basic facts on bytes and words *)

Arguments bswap_16 : simpl never.
Arguments load_u16 : simpl never.
Arguments byte_val : simpl never.

Lemma byte_val_range (b : byte) : 0 <= byte_val b <= 255.
Proof.
  unfold byte_val. pose proof (Byte.to_N_bounded b). lia.
Qed.

Lemma byte_val_inj (a b : byte) : byte_val a = byte_val b -> a = b.
Proof.
  unfold byte_val. intros H. apply N2Z.inj in H.
  pose proof (Byte.of_to_N a) as Ha. pose proof (Byte.of_to_N b) as Hb.
  rewrite H in Ha. congruence.
Qed.

Lemma lor_shiftl_8 (a b : Z) :
  0 <= a <= 255 -> 0 <= b -> Z.lor a (Z.shiftl b 8) = a + 256 * b.
Proof.
  intros Ha Hb. rewrite Z.shiftl_mul_pow2 by lia. change (2 ^ 8) with 256.
  assert (Z.land a (b * 256) = 0) as Hdisj.
  { apply Z.bits_inj'. intros n Hn. rewrite Z.land_spec, Z.bits_0.
    destruct (Z.ltb_spec n 8).
    - change 256 with (2 ^ 8). rewrite Z.mul_pow2_bits_low by lia.
      apply andb_false_r.
    - assert (Z.testbit a n = false) as ->; [|reflexivity].
      destruct (Z.eq_dec a 0) as [->|]; [apply Z.bits_0|].
      apply Z.bits_above_log2; [lia|].
      apply Z.log2_lt_pow2; [lia|].
      apply Z.lt_le_trans with (2 ^ 8); [change (2 ^ 8) with 256; lia|].
      apply Z.pow_le_mono_r; lia. }
  rewrite <- Z.lxor_lor by exact Hdisj.
  rewrite <- Z.add_nocarry_lxor by exact Hdisj. lia.
Qed.

Lemma load_u16_value (lo hi : byte) : load_u16 lo hi = byte_val lo + 256 * byte_val hi.
Proof.
  unfold load_u16. pose proof (byte_val_range lo). pose proof (byte_val_range hi).
  apply lor_shiftl_8; lia.
Qed.

Lemma bswap_16_value (a b : Z) :
  0 <= a <= 255 -> 0 <= b <= 255 -> bswap_16 (a + 256 * b) = b + 256 * a.
Proof.
  intros Ha Hb. unfold bswap_16.
  rewrite Z.shiftr_div_pow2 by lia.
  change 255 with (Z.ones 8). rewrite !Z.land_ones by lia.
  change (2 ^ 8) with 256.
  assert ((a + 256 * b) / 256 = b) as -> by (symmetry; apply (Z.div_unique _ 256 b a); lia).
  assert ((a + 256 * b) mod 256 = a) as -> by (symmetry; apply (Z.mod_unique _ 256 b a); lia).
  rewrite Z.mod_small by lia.
  apply lor_shiftl_8; lia.
Qed.

Lemma low_byte_value (a b : Z) :
  0 <= a <= 255 -> 0 <= b <= 255 -> Z.land (a + 256 * b) 255 = a.
Proof.
  intros Ha Hb. change 255 with (Z.ones 8). rewrite Z.land_ones by lia.
  change (2 ^ 8) with 256. symmetry; apply (Z.mod_unique _ 256 b a); lia.
Qed.

Lemma high_byte_value (a b : Z) :
  0 <= a <= 255 -> 0 <= b <= 255 -> Z.land (Z.shiftr (a + 256 * b) 8) 255 = b.
Proof.
  intros Ha Hb. rewrite Z.shiftr_div_pow2 by lia.
  change 255 with (Z.ones 8). rewrite Z.land_ones by lia.
  change (2 ^ 8) with 256.
  assert ((a + 256 * b) / 256 = b) as -> by (symmetry; apply (Z.div_unique _ 256 b a); lia).
  apply Z.mod_small; lia.
Qed.

(** A wire pair [hi, lo] read by the host and swapped is its big-endian value. *)
Lemma swapped_word_be16 (hi lo : byte) : bswap_16 (load_u16 hi lo) = be16 hi lo.
Proof.
  rewrite load_u16_value.
  rewrite bswap_16_value by apply byte_val_range.
  unfold be16. lia.
Qed.

Lemma be16_range (hi lo : byte) : 0 <= be16 hi lo <= 65535.
Proof.
  unfold be16. pose proof (byte_val_range hi). pose proof (byte_val_range lo). lia.
Qed.

Lemma be16_low (hi lo : byte) : Z.land (be16 hi lo) 255 = byte_val lo.
Proof.
  unfold be16. replace (256 * byte_val hi + byte_val lo)
    with (byte_val lo + 256 * byte_val hi) by lia.
  apply low_byte_value; apply byte_val_range.
Qed.

Lemma be16_high (hi lo : byte) : Z.land (Z.shiftr (be16 hi lo) 8) 255 = byte_val hi.
Proof.
  unfold be16. replace (256 * byte_val hi + byte_val lo)
    with (byte_val lo + 256 * byte_val hi) by lia.
  apply high_byte_value; apply byte_val_range.
Qed.

Lemma land_255_range (x : Z) : 0 <= Z.land x 255 <= 255.
Proof.
  assert (Z.land x 255 = x mod 256) as ->.
  { change 255 with (Z.ones 8). rewrite Z.land_ones by lia. reflexivity. }
  pose proof (Z.mod_pos_bound x 256 eq_refl). lia.
Qed.

Lemma uchar_at_range (data : list Z) (i : nat) : 0 <= uchar_at data i <= 255.
Proof.
  unfold uchar_at. destruct (Nat.even i); apply land_255_range.
Qed.

(** ** The checksum loop never wraps *)

Lemma fold_size_t_add (f : nat -> Z) (l : list nat) :
  (forall i, 0 <= f i <= 255) ->
  forall a, 0 <= a -> a + 255 * Z.of_nat (length l) < SIZE_MAX1 ->
  fold_left (fun acc i => size_t_add acc (f i)) l a
  = a + fold_right (fun i s => f i + s) 0 l.
Proof.
  intros Hf. induction l as [|i l IH]; intros a Ha Hb; simpl.
  - lia.
  - pose proof (Hf i) as Hi.
    change (length (i :: l)) with (S (length l)) in Hb.
    rewrite Nat2Z.inj_succ in Hb.
    assert (size_t_add a (f i) = a + f i) as ->.
    { unfold size_t_add. apply Z.mod_small. lia. }
    rewrite IH by lia. lia.
Qed.

Lemma wire_sum_range (bs : list byte) :
  0 <= wire_sum bs <= 255 * Z.of_nat (length bs).
Proof.
  unfold wire_sum. induction bs as [|b bs IH]; cbn [fold_right].
  - simpl. lia.
  - change (length (b :: bs)) with (S (length bs)).
    rewrite Nat2Z.inj_succ. pose proof (byte_val_range b). lia.
Qed.

(** Splitting a block of known length into its bytes. *)
Lemma explode_30 (buf : list byte) :
  length buf = 30%nat ->
  exists a0 a1 a2 a3 a4 a5 a6 a7 a8 a9 a10 a11 a12 a13 a14 a15 a16 a17 a18 a19
         a20 a21 a22 a23 a24 a25 a26 a27 a28 a29,
    buf = [a0; a1; a2; a3; a4; a5; a6; a7; a8; a9; a10; a11; a12; a13; a14;
           a15; a16; a17; a18; a19; a20; a21; a22; a23; a24; a25; a26; a27;
           a28; a29].
Proof.
  intros H.
  do 30 (destruct buf as [|? buf]; [discriminate H|]).
  destruct buf; [|discriminate H].
  repeat eexists.
Qed.

(** The bytes the loop of line 165 visits, after the swap, are the first 28
    wire bytes taken pairwise in reverse; their sum is the wire sum. *)
Lemma swapped_bytes_sum (buf : list byte) :
  length buf = 30%nat ->
  fold_right (fun i s => uchar_at (swapped_words buf) i + s) 0
             (seq 0 (sizeof_data - sizeof_data0))
  = wire_sum (firstn 28 buf).
Proof.
  intros H. destruct (explode_30 buf H) as
      (a0 & a1 & a2 & a3 & a4 & a5 & a6 & a7 & a8 & a9 & a10 & a11 & a12 & a13
       & a14 & a15 & a16 & a17 & a18 & a19 & a20 & a21 & a22 & a23 & a24 & a25
       & a26 & a27 & a28 & a29 & ->).
  cbn [sizeof_data sizeof_data0 Nat.sub seq fold_right swapped_words
       shorts_of_bytes map firstn wire_sum].
  unfold uchar_at.
  cbn [Nat.div Nat.divmod fst Nat.even nth].
  rewrite !swapped_word_be16, !be16_low, !be16_high.
  lia.
Qed.

(** After the swap, the two bytes of each of the first 14 words sit in
    memory in the reverse of their order on the wire. *)
Lemma swapped_bytes_exchanged (buf : list byte) (k : nat) :
  length buf = 30%nat -> (k < 14)%nat ->
  uchar_at (swapped_words buf) (2 * k) = byte_val (nth (2 * k + 1) buf x00)
  /\ uchar_at (swapped_words buf) (2 * k + 1) = byte_val (nth (2 * k) buf x00).
Proof.
  intros H Hk. destruct (explode_30 buf H) as
      (a0 & a1 & a2 & a3 & a4 & a5 & a6 & a7 & a8 & a9 & a10 & a11 & a12 & a13
       & a14 & a15 & a16 & a17 & a18 & a19 & a20 & a21 & a22 & a23 & a24 & a25
       & a26 & a27 & a28 & a29 & ->).
  unfold uchar_at.
  do 14 (destruct k as [|k];
         [cbn [swapped_words shorts_of_bytes map Nat.mul Nat.add Nat.div
               Nat.divmod fst Nat.even nth];
          rewrite !swapped_word_be16, be16_low, be16_high; split; reflexivity|]).
  lia.
Qed.

Lemma check_sum_wire (buf : list byte) :
  length buf = 30%nat ->
  check_sum (swapped_words buf) = 0x42 + 0x4d + wire_sum (firstn 28 buf).
Proof.
  intros H. unfold check_sum.
  rewrite (fold_size_t_add (uchar_at (swapped_words buf))).
  - rewrite swapped_bytes_sum by exact H. reflexivity.
  - apply uchar_at_range.
  - lia.
  - rewrite length_seq. unfold SIZE_MAX1. simpl. lia.
Qed.

Lemma wire_sum_28_bound (buf : list byte) :
  0 <= wire_sum (firstn 28 buf) <= 7140.
Proof.
  pose proof (wire_sum_range (firstn 28 buf)) as H.
  pose proof (firstn_le_length 28 buf) as L. lia.
Qed.

Lemma wire_checksum_small (buf : list byte) :
  wire_checksum buf = 0x42 + 0x4d + wire_sum (firstn 28 buf).
Proof.
  unfold wire_checksum. pose proof (wire_sum_28_bound buf).
  apply Z.mod_small. lia.
Qed.

Lemma swapped_word_0 (buf : list byte) :
  length buf = 30%nat -> nth 0 (swapped_words buf) 0 = wire_field buf 0.
Proof.
  intros H. destruct buf as [|a0 [|a1 buf]]; try discriminate H.
  unfold wire_field. cbn [swapped_words shorts_of_bytes map nth Nat.mul Nat.add].
  apply swapped_word_be16.
Qed.

Lemma swapped_word_nth (buf : list byte) (k : nat) :
  length buf = 30%nat -> (k < 15)%nat ->
  nth k (swapped_words buf) 0 = wire_field buf k.
Proof.
  intros H Hk. destruct (explode_30 buf H) as
      (a0 & a1 & a2 & a3 & a4 & a5 & a6 & a7 & a8 & a9 & a10 & a11 & a12 & a13
       & a14 & a15 & a16 & a17 & a18 & a19 & a20 & a21 & a22 & a23 & a24 & a25
       & a26 & a27 & a28 & a29 & ->).
  unfold wire_field.
  do 15 (destruct k as [|k];
         [cbn [swapped_words shorts_of_bytes map nth Nat.mul Nat.add];
          apply swapped_word_be16|]).
  lia.
Qed.

(** The two tests of the code decide the protocol's notion of a valid frame. *)
Lemma frame_ok_wire_valid (buf : list byte) :
  length buf = 30%nat -> frame_ok (swapped_words buf) = wire_valid buf.
Proof.
  intros H. unfold frame_ok, wire_valid, length_ok, sum_ok.
  rewrite check_sum_wire by exact H.
  rewrite !swapped_word_nth by (exact H || lia).
  rewrite wire_checksum_small.
  change (2 * 13 + 2) with 28.
  rewrite (Z.eqb_sym (wire_field buf 14)).
  destruct (wire_field buf 0 =? 28); simpl; [|reflexivity].
  destruct (_ =? _); reflexivity.
Qed.

(** ** Reading from the source *)

Lemma framed_nil (buf : list byte) (rest : list event) :
  framed [] buf ++ rest = Data x42 :: Data x4d :: map Data buf ++ rest.
Proof. reflexivity. Qed.

Lemma framed_app (g buf : list byte) (rest : list event) :
  framed g buf ++ rest = map Data g ++ Data x42 :: Data x4d :: map Data buf ++ rest.
Proof. unfold framed. rewrite <- app_assoc. reflexivity. Qed.

Lemma forced_read_from_data (bs : list byte) :
  forall num_read rest count,
    forced_read_from num_read (map Data bs ++ rest) (length bs) count = Got bs rest.
Proof.
  induction bs as [|b bs IH]; intros num_read rest count; simpl.
  - reflexivity.
  - rewrite IH. reflexivity.
Qed.

Lemma forced_read_block (buf : list byte) (rest : list event) :
  length buf = sizeof_data ->
  forced_read (map Data buf ++ rest) sizeof_data = Got buf rest.
Proof.
  intros H. unfold forced_read. rewrite <- H. apply forced_read_from_data.
Qed.

Lemma forced_read_from_length (todo : nat) :
  forall num_read src count bs rest,
    forced_read_from num_read src todo count = Got bs rest ->
    length src = (todo + length rest)%nat.
Proof.
  induction todo as [|todo IH]; intros num_read src count bs rest H; simpl in H.
  - inversion H; subst. reflexivity.
  - destruct src as [|[b| |] src]; try discriminate H.
    destruct (forced_read_from (S num_read) src todo count) as [bs' rest'|why] eqn:E;
      try discriminate H.
    inversion H; subst. apply IH in E. simpl. lia.
Qed.

Lemma forced_read_length (src : list event) (count : nat) bs rest :
  forced_read src count = Got bs rest -> length src = (count + length rest)%nat.
Proof. apply forced_read_from_length. Qed.

(** ** One turn of the loop *)

Section Turn.

Variable T_VERSION : Z.
Variable elapsed : nat -> float.
Variable average_over : Z.

Local Abbreviation iter := (iteration T_VERSION elapsed average_over).

(** A byte other than 0x42 where the marker is looked for is dropped. *)
Lemma iteration_skip (n : nat) (st : state) (b : byte) (rest : list event) :
  byte_val b <> 0x42 -> iter n st (Data b :: rest) = Next st [] rest.
Proof.
  intros Hb. unfold iteration. cbn [forced_read forced_read_from hd].
  apply Z.eqb_neq in Hb. rewrite Hb. reflexivity.
Qed.

(** A marker followed by a full block: the two tests decide. *)
Lemma iteration_block (n : nat) (st : state) (buf : list byte) (rest : list event) :
  length buf = 30%nat ->
  iter n st (Data x42 :: Data x4d :: map Data buf ++ rest)
  = if frame_ok (swapped_words buf)
    then Next (accumulate st (decode (swapped_words buf)))
              (if average_over =? 0
               then [print_data T_VERSION (elapsed n) 1 (decode (swapped_words buf))]
               else [])
              rest
    else Next st [] rest.
Proof.
  intros H. unfold iteration. cbn [forced_read forced_read_from hd].
  change (byte_val x42 =? 66) with true. change (byte_val x4d =? 77) with true.
  cbn [negb].
  change (forced_read_from 0 (map Data buf ++ rest) sizeof_data sizeof_data)
    with (forced_read (map Data buf ++ rest) sizeof_data).
  rewrite forced_read_block by exact H.
  unfold frame_ok.
  destruct (length_ok (swapped_words buf)); cbn [negb]; [|reflexivity].
  destruct (sum_ok (swapped_words buf)); cbn [negb]; [|reflexivity].
  destruct (average_over =? 0); reflexivity.
Qed.

Lemma iteration_accepted (n : nat) (st : state) (buf : list byte)
      (rest : list event) :
  length buf = 30%nat -> frame_ok (swapped_words buf) = true ->
  iter n st (framed [] buf ++ rest)
  = Next (accumulate st (measurement buf))
         (if average_over =? 0
          then [print_data T_VERSION (elapsed n) 1 (measurement buf)]
          else [])
         rest.
Proof.
  intros H Hok. rewrite framed_nil, iteration_block by exact H.
  rewrite Hok. reflexivity.
Qed.

Lemma iteration_rejected (n : nat) (st : state) (buf : list byte)
      (rest : list event) :
  length buf = 30%nat -> frame_ok (swapped_words buf) = false ->
  iter n st (framed [] buf ++ rest) = Next st [] rest.
Proof.
  intros H Hko. rewrite framed_nil, iteration_block by exact H.
  rewrite Hko. reflexivity.
Qed.

(** Every turn that goes on has consumed at least one event. *)
Lemma iteration_consumes (n : nat) (st st' : state) (src rest : list event) em :
  iter n st src = Next st' em rest -> (length rest < length src)%nat.
Proof.
  unfold iteration. intros H.
  destruct (forced_read src 1) as [ch src1|why] eqn:E1; [|discriminate H].
  apply forced_read_length in E1.
  destruct (negb (byte_val (hd x00 ch) =? 66)).
  { inversion H; subst. lia. }
  destruct (forced_read src1 1) as [ch' src2|why] eqn:E2; [|discriminate H].
  apply forced_read_length in E2.
  destruct (negb (byte_val (hd x00 ch') =? 77)).
  { inversion H; subst. lia. }
  destruct (forced_read src2 sizeof_data) as [buf src3|why] eqn:E3; [|discriminate H].
  apply forced_read_length in E3.
  destruct (negb (length_ok (swapped_words buf))).
  { inversion H; subst. lia. }
  destruct (negb (sum_ok (swapped_words buf))).
  { inversion H; subst. lia. }
  destruct (average_over =? 0); inversion H; subst; lia.
Qed.

Local Abbreviation loop := (main_loop T_VERSION elapsed average_over).

(** Fuel beyond the length of the source changes nothing. *)
Lemma main_loop_fuel (f1 : nat) :
  forall f2 st out src,
    (length src < f1)%nat -> (length src < f2)%nat ->
    loop f1 st out src = loop f2 st out src.
Proof.
  induction f1 as [|f1 IH]; intros f2 st out src H1 H2; [lia|].
  destruct f2 as [|f2]; [lia|].
  cbn [main_loop].
  destruct (iteration T_VERSION elapsed average_over (length out) st src)
    as [st' em rest|why] eqn:E; [|reflexivity].
  apply iteration_consumes in E. apply IH; lia.
Qed.

(** The loop always reaches an outcome on a finite source. *)
Lemma main_loop_total (f : nat) :
  forall st out src, (length src < f)%nat -> exists o, loop f st out src = Some o.
Proof.
  induction f as [|f IH]; intros st out src H; [lia|].
  cbn [main_loop].
  destruct (iteration T_VERSION elapsed average_over (length out) st src)
    as [st' em rest|[| |]] eqn:E; try (eexists; reflexivity).
  apply iteration_consumes in E. apply IH; lia.
Qed.

Lemma main_loop_turn (f : nat) (st : state) (out : list record)
      (src : list event) :
  loop (S f) st out src
  = match iter (length out) st src with
    | Next st' emitted rest => loop f st' (out ++ emitted) rest
    | Stop Starved => Some (Blocked st out)
    | Stop (ReadFailed num_read count) =>
      Some (Exited (exit_status (-1)) out [fatal_read num_read count])
    | Stop Signalled =>
      Some (sigalrm_handler T_VERSION elapsed (length out) st out)
    end.
Proof. reflexivity. Qed.

Local Abbreviation go := (run T_VERSION elapsed average_over).

Lemma run_next (st st' : state) (out em : list record) (src rest : list event) :
  iter (length out) st src = Next st' em rest ->
  go st out src = go st' (out ++ em) rest.
Proof.
  intros E. unfold run.
  rewrite (main_loop_turn (length src) st out src), E.
  apply iteration_consumes in E. apply main_loop_fuel; lia.
Qed.

(** [main] reaches an outcome on every finite source. *)
Lemma main_total (src : list event) :
  exists o, main T_VERSION elapsed average_over src = Some o.
Proof. apply main_loop_total. lia. Qed.

Lemma run_alarm (st : state) (out : list record) (rest : list event) :
  go st out (Alarm :: rest)
  = Some (sigalrm_handler T_VERSION elapsed (length out) st out).
Proof. reflexivity. Qed.

Lemma run_starved (st : state) (out : list record) :
  go st out [] = Some (Blocked st out).
Proof. reflexivity. Qed.

(** Bytes other than 0x42 in front of the source are dropped one by one. *)
Lemma run_garbage (g : list byte) :
  Forall (fun b => byte_val b <> 0x42) g ->
  forall st out src, go st out (map Data g ++ src) = go st out src.
Proof.
  induction 1 as [|b g Hb _ IH]; intros st out src; [reflexivity|].
  cbn [map app]. rewrite (run_next st st out [] _ (map Data g ++ src)).
  - rewrite app_nil_r. apply IH.
  - apply iteration_skip. exact Hb.
Qed.

(** An accepted block is folded into the state and, without an averaging
    window, printed. *)
Lemma run_block (st : state) (out : list record) (buf : list byte)
      (rest : list event) :
  length buf = 30%nat -> frame_ok (swapped_words buf) = true ->
  go st out (Data x42 :: Data x4d :: map Data buf ++ rest)
  = go (accumulate st (decode (swapped_words buf)))
       (out ++ (if average_over =? 0
                then [print_data T_VERSION (elapsed (length out)) 1
                                 (decode (swapped_words buf))]
                else []))
       rest.
Proof.
  intros H Hok. apply run_next.
  rewrite iteration_block by exact H. rewrite Hok. reflexivity.
Qed.

End Turn.

(** ** Frame validation *)

(** C9: the sum that the code takes over the first 28 bytes of the swapped
    word array is the sum of the 28 corresponding wire bytes plus the two
    marker bytes; it is at most 7283, below 65536, so the direct comparison of
    line 167 with the checksum word is the comparison modulo 65536. *)
Theorem checksum_of_swapped_words (buf : list byte) :
  length buf = 30%nat ->
  check_sum (swapped_words buf) = 0x42 + 0x4d + wire_sum (firstn 28 buf)
  /\ check_sum (swapped_words buf) <= 0x42 + 0x4d + 28 * 255
  /\ 0x42 + 0x4d + 28 * 255 = 7283
  /\ 7283 < 65536
  /\ sum_ok (swapped_words buf) = (wire_checksum buf =? wire_field buf 14)
  /\ (forall k, (k < 14)%nat ->
                uchar_at (swapped_words buf) (2 * k) + uchar_at (swapped_words buf) (2 * k + 1)
                = byte_val (nth (2 * k) buf x00) + byte_val (nth (2 * k + 1) buf x00)).
Proof.
  intros H. pose proof (wire_sum_28_bound buf) as B.
  rewrite (check_sum_wire buf H).
  repeat split; try lia.
  2:{ intros k Hk. destruct (swapped_bytes_exchanged buf k H Hk) as [-> ->]. lia. }
  unfold sum_ok. rewrite (check_sum_wire buf H), wire_checksum_small.
  rewrite swapped_word_nth by (exact H || lia). reflexivity.
Qed.

Lemma checksum_of_swapped_words_witness :
  length (scenario_frame x00 x00) = 30%nat
  /\ check_sum (swapped_words (scenario_frame x00 x00)) = 540.
Proof.
  split; [reflexivity|].
  destruct (checksum_of_swapped_words (scenario_frame x00 x00) eq_refl) as [E _].
  rewrite E. reflexivity.
Defined.

Section Validation.

Variable T_VERSION : Z.
Variable elapsed : nat -> float.
Variable average_over : Z.

Local Abbreviation iter := (iteration T_VERSION elapsed average_over).

(** C5: after the marker, a block of 30 bytes is decoded and folded in exactly
    when its first word is 28 and its last word is the sum, modulo 65536, of
    the marker bytes and of its first 28 bytes; otherwise the turn ends with
    the state as it was and nothing printed. *)
Theorem frame_forwarded_iff_valid (n : nat) (st : state) (buf : list byte)
        (rest : list event) :
  length buf = 30%nat ->
  (frame_ok (swapped_words buf) = true
   <-> wire_field buf 0 = 28 /\ wire_field buf 14 = wire_checksum buf)
  /\ (frame_ok (swapped_words buf) = true ->
      iter n st (framed [] buf ++ rest)
      = Next (accumulate st (measurement buf))
             (if average_over =? 0
              then [print_data T_VERSION (elapsed n) 1 (measurement buf)]
              else [])
             rest)
  /\ (frame_ok (swapped_words buf) = false ->
      iter n st (framed [] buf ++ rest) = Next st [] rest).
Proof.
  intros H. split; [|split].
  - rewrite (frame_ok_wire_valid buf H). unfold wire_valid.
    rewrite andb_true_iff, !Z.eqb_eq. reflexivity.
  - intros Hok. apply iteration_accepted; assumption.
  - intros Hko. apply iteration_rejected; assumption.
Qed.

(** C10: a block that fails the length test or the checksum test leaves the
    twelve sums and the count as they were and prints nothing, with or without
    an averaging window. *)
Theorem rejected_frame_changes_nothing (n : nat) (st : state) (buf : list byte)
        (rest : list event) :
  length buf = 30%nat ->
  wire_field buf 0 <> 28 \/ wire_field buf 14 <> wire_checksum buf ->
  iter n st (framed [] buf ++ rest) = Next st [] rest.
Proof.
  intros H Hbad.
  assert (frame_ok (swapped_words buf) = false) as Hko.
  { rewrite (frame_ok_wire_valid buf H). unfold wire_valid.
    apply andb_false_iff. rewrite !Z.eqb_neq. exact Hbad. }
  apply iteration_rejected; assumption.
Qed.

End Validation.

Lemma frame_forwarded_iff_valid_witness :
  length (scenario_frame x00 x00) = 30%nat
  /\ iteration 0 still_clock 0 0 initial_state
               (framed [] (scenario_frame x00 x00) ++ [])
     = Next (accumulate initial_state (measurement (scenario_frame x00 x00)))
            [print_data 0 (still_clock 0%nat) 1 (measurement (scenario_frame x00 x00))]
            [].
Proof.
  split; [reflexivity|].
  destruct (frame_forwarded_iff_valid 0 still_clock 0 0%nat initial_state
              (scenario_frame x00 x00) [] eq_refl) as (_ & Hf & _).
  apply Hf. vm_compute. reflexivity.
Defined.

Lemma rejected_frame_changes_nothing_witness :
  length (corrupt (scenario_frame x00 x00) 3 x06) = 30%nat
  /\ wire_field (corrupt (scenario_frame x00 x00) 3 x06) 14
     <> wire_checksum (corrupt (scenario_frame x00 x00) 3 x06)
  /\ iteration 0 still_clock 60 0 initial_state
               (framed [] (corrupt (scenario_frame x00 x00) 3 x06) ++ [])
     = Next initial_state [] [].
Proof.
  split; [reflexivity|]. split; [vm_compute; lia|].
  apply (rejected_frame_changes_nothing 0 still_clock 60 0%nat initial_state
           (corrupt (scenario_frame x00 x00) 3 x06) [] eq_refl).
  right. vm_compute. lia.
Defined.

(** ** Corruption of one byte *)

Lemma corrupt_cons_S (a b : byte) (l : list byte) (i : nat) :
  corrupt (a :: l) (S i) b = a :: corrupt l i b.
Proof. reflexivity. Qed.

Lemma corrupt_length (l : list byte) :
  forall i b, (i < length l)%nat -> length (corrupt l i b) = length l.
Proof.
  induction l as [|a l IH]; intros i b Hi; simpl in Hi; [lia|].
  destruct i as [|i]; [reflexivity|].
  rewrite corrupt_cons_S. simpl. rewrite IH by lia. reflexivity.
Qed.

Lemma nth_corrupt_other (l : list byte) :
  forall i j b d, (i < length l)%nat -> j <> i ->
                  nth j (corrupt l i b) d = nth j l d.
Proof.
  induction l as [|a l IH]; intros i j b d Hi Hj; simpl in Hi; [lia|].
  destruct i as [|i].
  - destruct j as [|j]; [congruence|reflexivity].
  - rewrite corrupt_cons_S. destruct j as [|j]; [reflexivity|].
    simpl. apply IH; lia.
Qed.

Lemma wire_sum_firstn_corrupt (l : list byte) :
  forall i n b, (i < n)%nat -> (i < length l)%nat ->
    wire_sum (firstn n (corrupt l i b))
    = wire_sum (firstn n l) - byte_val (nth i l x00) + byte_val b.
Proof.
  unfold wire_sum.
  induction l as [|a l IH]; intros i n b Hn Hi; simpl in Hi; [lia|].
  destruct n as [|n]; [lia|].
  destruct i as [|i].
  - unfold corrupt. cbn [firstn skipn app fold_right nth]. lia.
  - rewrite corrupt_cons_S. cbn [firstn fold_right nth].
    rewrite IH by lia. lia.
Qed.

Lemma wire_field_corrupt_14 (buf : list byte) (i : nat) (b : byte) :
  length buf = 30%nat -> (i < 28)%nat ->
  wire_field (corrupt buf i b) 14 = wire_field buf 14.
Proof.
  intros H Hi. unfold wire_field.
  rewrite !nth_corrupt_other by lia. reflexivity.
Qed.

Section Corruption.

Variable T_VERSION : Z.
Variable elapsed : nat -> float.
Variable average_over : Z.

(** C8: when one of the 28 bytes of an accepted block that the checksum covers
    is replaced by a different byte, the block is rejected: the byte sum moves
    by a nonzero amount and the checksum word stays. *)
Theorem single_byte_corruption_rejected (n : nat) (st : state)
        (buf : list byte) (i : nat) (b : byte) (rest : list event) :
  length buf = 30%nat ->
  frame_ok (swapped_words buf) = true ->
  (i < 28)%nat ->
  b <> nth i buf x00 ->
  frame_ok (swapped_words (corrupt buf i b)) = false
  /\ iteration T_VERSION elapsed average_over n st
               (framed [] (corrupt buf i b) ++ rest)
     = Next st [] rest.
Proof.
  intros H Hok Hi Hb.
  assert (length (corrupt buf i b) = 30%nat) as H'
      by (rewrite corrupt_length; lia).
  assert (wire_field (corrupt buf i b) 14 <> wire_checksum (corrupt buf i b)) as Hsum.
  { rewrite (frame_ok_wire_valid buf H) in Hok. unfold wire_valid in Hok.
    apply andb_true_iff in Hok. destruct Hok as [_ Hc]. apply Z.eqb_eq in Hc.
    rewrite wire_field_corrupt_14 by assumption. rewrite Hc.
    rewrite !wire_checksum_small.
    rewrite wire_sum_firstn_corrupt by lia.
    intros E.
    assert (byte_val b = byte_val (nth i buf x00)) as Hv by lia.
    apply byte_val_inj in Hv. contradiction. }
  assert (frame_ok (swapped_words (corrupt buf i b)) = false) as Hko.
  { rewrite (frame_ok_wire_valid _ H'). unfold wire_valid.
    apply andb_false_iff. right. apply Z.eqb_neq. exact Hsum. }
  split; [exact Hko|].
  apply iteration_rejected; assumption.
Qed.

End Corruption.

Lemma single_byte_corruption_rejected_witness :
  length (scenario_frame x00 x00) = 30%nat
  /\ frame_ok (swapped_words (scenario_frame x00 x00)) = true
  /\ (5 < 28)%nat
  /\ xff <> nth 5 (scenario_frame x00 x00) x00
  /\ frame_ok (swapped_words (corrupt (scenario_frame x00 x00) 5 xff)) = false.
Proof.
  split; [reflexivity|]. split; [vm_compute; reflexivity|].
  split; [lia|]. split; [vm_compute; discriminate|].
  apply (single_byte_corruption_rejected 0 still_clock 0 0%nat initial_state
           (scenario_frame x00 x00) 5 xff []).
  - reflexivity.
  - vm_compute. reflexivity.
  - lia.
  - vm_compute. discriminate.
Defined.

(** ** The emitter *)

Local Open Scope string_scope.

(** C1, as the code has it: a record holds, after the elapsed seconds (one
    decimal) and the number of measurements, the nine data fields atm_pm1,
    atm_pm2_5, atm_pm10, count_0_3um, count_0_5um, count_1um, count_2_5um and
    the two fields of the variant, in this order, each with two decimals; the
    loop of line 94 starts at index 3, so std_pm1, std_pm2_5 and std_pm10 are
    not printed. *)
Theorem print_data_fields (T_VERSION : Z) (diff_time : float)
        (num_measurements : Z) (data : list float) :
  print_data T_VERSION diff_time num_measurements data
  = [ ("timestamp", Fixed 1 diff_time);
      ("num_measurements", Unsigned num_measurements);
      ("atm_pm1", Fixed 2 (nth 3 data 0%float));
      ("atm_pm2_5", Fixed 2 (nth 4 data 0%float));
      ("atm_pm10", Fixed 2 (nth 5 data 0%float));
      ("count_0_3um", Fixed 2 (nth 6 data 0%float));
      ("count_0_5um", Fixed 2 (nth 7 data 0%float));
      ("count_1um", Fixed 2 (nth 8 data 0%float));
      ("count_2_5um", Fixed 2 (nth 9 data 0%float));
      (if (T_VERSION =? 0)%Z then "count_5um" else "temperature",
       Fixed 2 (variant_scale T_VERSION 10 (nth 10 data 0%float)));
      (if (T_VERSION =? 0)%Z then "count_10um" else "humidity",
       Fixed 2 (variant_scale T_VERSION 11 (nth 11 data 0%float))) ].
Proof.
  unfold print_data, scaled, variant_scale, labels, DATA11_STRING, DATA12_STRING.
  cbn [Nat.sub seq map nth Nat.eqb orb].
  rewrite andb_false_r, andb_true_r. reflexivity.
Qed.

(** C1, as stated, fails: the record printed for the frame of the scenario
    has eleven keys, and std_pm1 is not one of them. *)
Lemma print_data_omits_std_fields :
  map fst (print_data 0 0%float 1 (measurement (scenario_frame x00 x00)))
  <> [ "timestamp"; "num_measurements";
       "std_pm1"; "std_pm2_5"; "std_pm10"; "atm_pm1"; "atm_pm2_5"; "atm_pm10";
       "count_0_3um"; "count_0_5um"; "count_1um"; "count_2_5um";
       "count_5um"; "count_10um" ]
  /\ map fst (print_data 0 0%float 1 (measurement (scenario_frame x00 x00)))
     = [ "timestamp"; "num_measurements";
         "atm_pm1"; "atm_pm2_5"; "atm_pm10";
         "count_0_3um"; "count_0_5um"; "count_1um"; "count_2_5um";
         "count_5um"; "count_10um" ].
Proof.
  split; [|reflexivity].
  vm_compute. discriminate.
Qed.

Local Close Scope string_scope.

(** ** Decoding *)

Lemma nth_map_seq (A : Type) (f : nat -> A) (d : A) (n i : nat) :
  (i < n)%nat -> nth i (map f (seq 0 n)) d = f i.
Proof.
  intros Hi.
  rewrite (nth_indep _ d (f 0%nat)) by (rewrite length_map, length_seq; exact Hi).
  rewrite map_nth, seq_nth by exact Hi. reflexivity.
Qed.

(** Each data field is the big-endian value of its two wire bytes. *)
Lemma measurement_big_endian (buf : list byte) :
  length buf = 30%nat ->
  measurement buf
  = map (fun i => double_of_Z (wire_field buf (i + 1))) (seq 0 12).
Proof.
  intros H. unfold measurement, decode, avg_len.
  apply map_ext_in. intros i Hi. apply in_seq in Hi.
  rewrite swapped_word_nth by (exact H || lia). reflexivity.
Qed.




Section Streaming.

Variable T_VERSION : Z.
Variable elapsed : nat -> float.

Local Open Scope string_scope.


(** C3, as the code has it: without an averaging window, a turn that reads an
    accepted frame prints one record at once, and that record is the same
    whatever the sums and the count were: it is made of the big-endian values of
    the frame and of the clock only. The sums and the count are changed all the
    same (lines 171-175 run in both modes): each sum grows by the field of the
    frame, the count by one modulo 2^64. *)
Theorem streaming_emits_frame_only (n : nat) (st1 st2 : state)
        (buf : list byte) (rest : list event) :
  length buf = 30%nat ->
  frame_ok (swapped_words buf) = true ->
  exists st1' st2',
    iteration T_VERSION elapsed 0 n st1 (framed [] buf ++ rest)
    = Next st1'
           [print_data T_VERSION (elapsed n) 1
                       (map (fun i => double_of_Z (wire_field buf (i + 1)))
                            (seq 0 12))]
           rest
    /\ iteration T_VERSION elapsed 0 n st2 (framed [] buf ++ rest)
       = Next st2'
              [print_data T_VERSION (elapsed n) 1
                          (map (fun i => double_of_Z (wire_field buf (i + 1)))
                               (seq 0 12))]
              rest
    /\ avg_num st1' = (avg_num st1 + 1) mod 2 ^ 64
    /\ (forall i, (i < 12)%nat ->
                  nth i (avg_sum st1') 0%float
                  = (nth i (avg_sum st1) 0
                     + double_of_Z (wire_field buf (i + 1)))%float).
Proof.
  intros H Hok.
  exists (accumulate st1 (measurement buf)), (accumulate st2 (measurement buf)).
  rewrite !iteration_accepted by assumption.
  rewrite (measurement_big_endian buf H). cbn [Z.eqb].
  split; [reflexivity|]. split; [reflexivity|]. split; [reflexivity|].
  intros i Hi. cbn [accumulate avg_sum]. unfold avg_len.
  rewrite !nth_map_seq by exact Hi. reflexivity.
Qed.

End Streaming.

Lemma streaming_emits_frame_only_witness :
  length (scenario_frame x00 x00) = 30%nat
  /\ frame_ok (swapped_words (scenario_frame x00 x00)) = true
  /\ exists st1' st2',
      iteration 0 still_clock 0 0 initial_state
                (framed [] (scenario_frame x00 x00) ++ [])
      = Next st1'
             [print_data 0 (still_clock 0%nat) 1
                         (map (fun i => double_of_Z
                                          (wire_field (scenario_frame x00 x00) (i + 1)))
                              (seq 0 12))]
             []
      /\ iteration 0 still_clock 0 0
                   (accumulate initial_state (measurement (scenario_frame x00 x00)))
                   (framed [] (scenario_frame x00 x00) ++ [])
         = Next st2'
                [print_data 0 (still_clock 0%nat) 1
                            (map (fun i => double_of_Z
                                             (wire_field (scenario_frame x00 x00) (i + 1)))
                                 (seq 0 12))]
                []
      /\ avg_num st1' = (avg_num initial_state + 1) mod 2 ^ 64.
Proof.
  split; [reflexivity|]. split; [vm_compute; reflexivity|].
  destruct (streaming_emits_frame_only 0 still_clock 0%nat initial_state
              (accumulate initial_state (measurement (scenario_frame x00 x00)))
              (scenario_frame x00 x00) [])
    as (st1' & st2' & E1 & E2 & E3 & _).
  - reflexivity.
  - vm_compute. reflexivity.
  - exists st1', st2'. split; [exact E1|]. split; [exact E2|exact E3].
Defined.

(** C3, as stated, fails: without an averaging window, the turn that reads
    the frame of the scenario from the initial state leaves the count at 1 and
    the sums at the values of the frame. *)
Lemma streaming_updates_aggregation_state :
  exists st' emitted,
    iteration 0 still_clock 0 0 initial_state
              (framed [] (scenario_frame x00 x00) ++ [])
    = Next st' emitted []
    /\ avg_num initial_state = 0
    /\ avg_num st' = 1
    /\ avg_sum st' = [5; 10; 15; 20; 25; 30; 2; 3; 4; 5; 200; 50]%float
    /\ st' <> initial_state.
Proof.
  eexists. eexists. split; [vm_compute; reflexivity|].
  split; [reflexivity|]. split; [reflexivity|]. split; [reflexivity|].
  intros E. apply (f_equal avg_num) in E. vm_compute in E. discriminate E.
Qed.

(** ** The synchroniser *)

Section Synchroniser.

Variable T_VERSION : Z.
Variable elapsed : nat -> float.
Variable average_over : Z.

Local Abbreviation go := (run T_VERSION elapsed average_over).

Lemma run_framed (st : state) (out : list record) (g buf : list byte)
      (rest : list event) :
  Forall (fun b => byte_val b <> 0x42) g ->
  length buf = 30%nat ->
  go st out (framed g buf ++ rest)
  = if frame_ok (swapped_words buf)
    then go (accumulate st (measurement buf))
            (out ++ (if average_over =? 0
                     then [print_data T_VERSION (elapsed (length out)) 1
                                      (measurement buf)]
                     else []))
            rest
    else go st out rest.
Proof.
  intros Hg H. rewrite framed_app, run_garbage by exact Hg.
  destruct (frame_ok (swapped_words buf)) eqn:Hok.
  - apply run_block; assumption.
  - rewrite <- (app_nil_r out) at 2. apply run_next.
    rewrite iteration_block by exact H. rewrite Hok. reflexivity.
Qed.

(** A 0x42 and a byte other than 0x4D after it are dropped together. *)
Lemma iteration_skip_pair (n : nat) (st : state) (b c : byte)
      (rest : list event) :
  byte_val b = 0x42 -> byte_val c <> 0x4d ->
  iteration T_VERSION elapsed average_over n st (Data b :: Data c :: rest)
  = Next st [] rest.
Proof.
  intros Hb Hc. unfold iteration. cbn [forced_read forced_read_from hd].
  rewrite Hb. apply Z.eqb_neq in Hc. rewrite Hc. reflexivity.
Qed.

Lemma run_skipped_bounded (k : nat) :
  forall g, (length g <= k)%nat -> skipped g = true ->
            forall st out src, go st out (map Data g ++ src) = go st out src.
Proof.
  induction k as [|k IH]; intros g Hk Hg st out src.
  - destruct g; [reflexivity|simpl in Hk; lia].
  - destruct g as [|b r]; [reflexivity|]. cbn [skipped] in Hg. cbn [length] in Hk.
    destruct (Z.eqb_spec (byte_val b) 66) as [Hb|Hb]; cbn [negb] in Hg.
    + destruct r as [|c r']; [discriminate Hg|]. cbn [length] in Hk.
      destruct (Z.eqb_spec (byte_val c) 77) as [Hc|Hc]; cbn [negb] in Hg;
        [discriminate Hg|].
      cbn [map app].
      rewrite (run_next T_VERSION elapsed average_over st st out []
                        _ (map Data r' ++ src)).
      * rewrite app_nil_r. apply IH; [lia|exact Hg].
      * apply iteration_skip_pair; assumption.
    + cbn [map app].
      rewrite (run_next T_VERSION elapsed average_over st st out []
                        _ (map Data r ++ src)).
      * rewrite app_nil_r. apply IH; [lia|exact Hg].
      * apply iteration_skip. exact Hb.
Qed.

(** Garbage consumed in whole turns leaves the state and the output alone. *)
Lemma run_skipped (g : list byte) (st : state) (out : list record)
      (src : list event) :
  skipped g = true -> go st out (map Data g ++ src) = go st out src.
Proof.
  intros Hg. apply (run_skipped_bounded (length g)); [lia|exact Hg].
Qed.

Lemma run_chunk (st : state) (out : list record) (g buf : list byte)
      (rest : list event) :
  skipped g = true ->
  length buf = 30%nat ->
  go st out (framed g buf ++ rest)
  = if frame_ok (swapped_words buf)
    then go (accumulate st (measurement buf))
            (out ++ (if average_over =? 0
                     then [print_data T_VERSION (elapsed (length out)) 1
                                      (measurement buf)]
                     else []))
            rest
    else go st out rest.
Proof.
  intros Hg H. rewrite framed_app, run_skipped by exact Hg.
  destruct (frame_ok (swapped_words buf)) eqn:Hok.
  - apply run_block; assumption.
  - rewrite <- (app_nil_r out) at 2. apply run_next.
    rewrite iteration_block by exact H. rewrite Hok. reflexivity.
Qed.

(** C2, as the code has it: a valid frame is found behind every garbage that
    the scanner consumes in whole turns, a turn dropping either one byte other
    than 0x42 or a 0x42 together with the byte after it when that byte is not
    0x4D (so behind 42 00 or 42 42 as well): the garbage leaves the state and
    the output alone, the marker and the block are read, the measurement is
    folded in (and printed when there is no averaging window) and the run goes
    on with what follows the frame. A byte read in second position that is not
    0x4D is dropped with the 0x42 before it and is not looked at again as a
    first marker byte; so when one more 0x42 stands between such garbage and
    the marker, the 0x42 of the marker is dropped with it, its 0x4D is dropped
    next, and the scan goes on at the first byte of the block: this marker is
    not found. *)
Theorem synchronizer_finds_frame_after_garbage (st : state) (out : list record)
        (g buf : list byte) (rest : list event) :
  skipped g = true ->
  length buf = 30%nat ->
  frame_ok (swapped_words buf) = true ->
  go st out (map Data g ++ rest) = go st out rest
  /\ go st out (framed g buf ++ rest)
     = go (accumulate st (measurement buf))
          (out ++ (if average_over =? 0
                   then [print_data T_VERSION (elapsed (length out)) 1
                                    (measurement buf)]
                   else []))
          rest
  /\ (forall n st' c src,
         byte_val c <> 0x4d ->
         iteration T_VERSION elapsed average_over n st'
                   (Data x42 :: Data c :: src)
         = Next st' [] src)
  /\ go st out (map Data g ++ Data x42 :: framed [] buf ++ rest)
     = go st out (map Data buf ++ rest).
Proof.
  intros Hg H Hok. split; [|split; [|split]].
  - apply run_skipped. exact Hg.
  - rewrite run_chunk by assumption. rewrite Hok. reflexivity.
  - intros n st' c src Hc. apply iteration_skip_pair; [reflexivity|exact Hc].
  - rewrite run_skipped by exact Hg. rewrite framed_nil.
    rewrite (run_next T_VERSION elapsed average_over st st out []
                      _ (Data x4d :: map Data buf ++ rest)).
    + rewrite app_nil_r.
      rewrite (run_next T_VERSION elapsed average_over st st out []
                        _ (map Data buf ++ rest)).
      * rewrite app_nil_r. reflexivity.
      * apply iteration_skip. vm_compute. discriminate.
    + apply iteration_skip_pair; [reflexivity|]. vm_compute. discriminate.
Qed.

End Synchroniser.

Lemma synchronizer_finds_frame_after_garbage_witness :
  skipped [x4d; x42; x00; x42; x42; xff] = true
  /\ length (scenario_frame x00 x00) = 30%nat
  /\ frame_ok (swapped_words (scenario_frame x00 x00)) = true
  /\ run 0 still_clock 0 initial_state []
         (framed [x4d; x42; x00; x42; x42; xff] (scenario_frame x00 x00) ++ [])
     = run 0 still_clock 0
           (accumulate initial_state (measurement (scenario_frame x00 x00)))
           ([] ++ [print_data 0 (still_clock 0%nat) 1
                              (measurement (scenario_frame x00 x00))])
           [].
Proof.
  split; [reflexivity|]. split; [reflexivity|]. split; [vm_compute; reflexivity|].
  apply (synchronizer_finds_frame_after_garbage 0 still_clock 0 initial_state []
           [x4d; x42; x00; x42; x42; xff] (scenario_frame x00 x00) []).
  - reflexivity.
  - reflexivity.
  - vm_compute. reflexivity.
Defined.

(** C2, as stated, fails: with one stray 0x42 right before the marker of a
    valid frame, the second read takes the 0x42 of the marker, the test of
    line 151 fails, and the frame goes by unseen: nothing is printed and the
    state is untouched, where the frame alone is printed. *)
Lemma stray_marker_byte_hides_frame :
  frame_ok (swapped_words (scenario_frame x00 x00)) = true
  /\ main 0 still_clock 0 (framed [x42] (scenario_frame x00 x00))
     = Some (Blocked initial_state [])
  /\ main 0 still_clock 0 (framed [] (scenario_frame x00 x00))
     = Some (Blocked
               (accumulate initial_state (measurement (scenario_frame x00 x00)))
               [print_data 0 0%float 1 (measurement (scenario_frame x00 x00))]).
Proof.
  split; [|split]; vm_compute; reflexivity.
Qed.

(** ** The flush *)

Section Flush.

Variable T_VERSION : Z.
Variable elapsed : nat -> float.
Variable average_over : Z.

(** C7: when the alarm is delivered with a count of zero, the handler prints
    no record, writes the warning to stderr and exits with status 255. *)
Theorem flush_with_no_frames (st : state) (out : list record)
        (rest : list event) :
  avg_num st = 0 ->
  sigalrm_handler T_VERSION elapsed (length out) st out
  = Exited 255 out [warning_no_data_frames]
  /\ run T_VERSION elapsed average_over st out (Alarm :: rest)
     = Some (Exited 255 out [warning_no_data_frames])
  /\ 255 <> 0.
Proof.
  intros H0.
  assert (sigalrm_handler T_VERSION elapsed (length out) st out
          = Exited 255 out [warning_no_data_frames]) as E.
  { unfold sigalrm_handler. rewrite H0. reflexivity. }
  split; [exact E|]. split; [|discriminate].
  rewrite run_alarm, E. reflexivity.
Qed.

End Flush.

Lemma flush_with_no_frames_witness :
  avg_num initial_state = 0
  /\ main 0 still_clock 60 (map Data [x00; x4d; x17] ++ [Alarm])
     = Some (Exited 255 [] [warning_no_data_frames]).
Proof.
  split; [reflexivity|].
  assert (main 0 still_clock 60 (map Data [x00; x4d; x17] ++ [Alarm])
          = run 0 still_clock 60 initial_state [] [Alarm]) as ->
      by (vm_compute; reflexivity).
  apply (flush_with_no_frames 0 still_clock 60 initial_state [] []).
  reflexivity.
Defined.

(** ** Accumulation *)




Local Open Scope string_scope.

(** The scenario of the two frames: the record of the flush shows 15 for
    atm_pm2_5 and 2 measurements. *)
Example mean_of_10_and_20 :
  main 0 still_clock 60 (stream pm25_stream ++ [Alarm])
  = Some (Exited 0
            [ [ ("timestamp", Fixed 1 0%float);
                ("num_measurements", Unsigned 2);
                ("atm_pm1", Fixed 2 4%float);
                ("atm_pm2_5", Fixed 2 15%float);
                ("atm_pm10", Fixed 2 6%float);
                ("count_0_3um", Fixed 2 0%float);
                ("count_0_5um", Fixed 2 0%float);
                ("count_1um", Fixed 2 0%float);
                ("count_2_5um", Fixed 2 0%float);
                ("count_5um", Fixed 2 0%float);
                ("count_10um", Fixed 2 0%float) ] ]
            []).
Proof. vm_compute. reflexivity. Qed.

Local Close Scope string_scope.

(** * Further properties of the program *)

(** ** [forced_read] *)

Lemma forced_read_from_inv (todo : nat) :
  forall num_read src count bs rest,
    forced_read_from num_read src todo count = Got bs rest ->
    src = map Data bs ++ rest /\ length bs = todo.
Proof.
  induction todo as [|todo IH]; intros num_read src count bs rest E; simpl in E.
  - inversion E; subst. split; reflexivity.
  - destruct src as [|[b| |] src]; try discriminate E.
    destruct (forced_read_from (S num_read) src todo count) as [bs' rest'|why] eqn:E';
      try discriminate E.
    inversion E; subst. apply IH in E'. destruct E' as [-> <-].
    split; reflexivity.
Qed.

(** X1: a call for at least one byte returns exactly when the source starts
    with that many bytes; it then hands over these bytes, in order, and leaves
    what follows them. *)
Theorem forced_read_returns_iff (src : list event) (count : nat)
        (bs : list byte) (rest : list event) :
  (0 < count)%nat ->
  forced_read src count = Got bs rest
  <-> src = map Data bs ++ rest /\ length bs = count.
Proof.
  intros _. split.
  - apply forced_read_from_inv.
  - intros [-> <-]. apply forced_read_from_data.
Qed.

Lemma forced_read_returns_iff_witness :
  (0 < 2)%nat
  /\ forced_read [Data x42; Data x4d; Data x00] 2 = Got [x42; x4d] [Data x00].
Proof.
  split; [lia|].
  apply (forced_read_returns_iff [Data x42; Data x4d; Data x00] 2 [x42; x4d]
                                 [Data x00]); [lia|].
  split; reflexivity.
Defined.

Lemma forced_read_from_fails (bs : list byte) :
  forall num_read todo count rest,
    (length bs < todo)%nat ->
    forced_read_from num_read (map Data bs ++ ReadError :: rest) todo count
    = NoRead (ReadFailed (num_read + length bs) count).
Proof.
  induction bs as [|b bs IH]; intros num_read todo count rest Hlt;
    (destruct todo as [|todo]; [simpl in Hlt; lia|]); simpl.
  - rewrite Nat.add_0_r. reflexivity.
  - rewrite IH by (simpl in Hlt; lia).
    rewrite Nat.add_succ_r. reflexivity.
Qed.

(** X2: when a read fails after fewer bytes than were asked for, the call does
    not return, and the diagnostic carries the number of bytes got so far and
    the number asked for. *)
Theorem forced_read_reports_partial_read (bs : list byte) (count : nat)
        (rest : list event) :
  (length bs < count)%nat ->
  forced_read (map Data bs ++ ReadError :: rest) count
  = NoRead (ReadFailed (length bs) count).
Proof.
  intros Hlt. unfold forced_read. rewrite forced_read_from_fails by exact Hlt.
  reflexivity.
Qed.

Lemma forced_read_reports_partial_read_witness :
  (length [x00; x1c; x00] < 30)%nat
  /\ forced_read (map Data [x00; x1c; x00] ++ ReadError :: [Data x05]) 30
     = NoRead (ReadFailed 3 30).
Proof.
  split; [simpl; lia|].
  apply (forced_read_reports_partial_read [x00; x1c; x00] 30 [Data x05]).
  simpl. lia.
Defined.

(** ** What an alarm or a failed read does to a run *)

Lemma forced_read_from_cut (e : event) (tail : list event) (todo : nat) :
  e = Alarm \/ e = ReadError ->
  forall num_read pre count,
    forced_read_from num_read (pre ++ e :: tail) todo count
    = match forced_read_from num_read pre todo count with
      | Got bs r => Got bs (r ++ e :: tail)
      | NoRead Starved => NoRead (cut_read e (num_read + length pre) count)
      | NoRead why => NoRead why
      end.
Proof.
  intros He. induction todo as [|todo IH]; intros num_read pre count.
  - reflexivity.
  - destruct pre as [|[b| |] pre]; cbn [app forced_read_from length].
    + rewrite Nat.add_0_r. destruct He as [-> | ->]; reflexivity.
    + rewrite IH.
      destruct (forced_read_from (S num_read) pre todo count) as [bs r|[| |]];
        try reflexivity.
      rewrite Nat.add_succ_r. reflexivity.
    + reflexivity.
    + reflexivity.
Qed.

Lemma forced_read_from_starved (todo : nat) :
  forall num_read pre count,
    forced_read_from num_read pre todo count = NoRead Starved ->
    (length pre < todo)%nat.
Proof.
  induction todo as [|todo IH]; intros num_read pre count E; simpl in E.
  - discriminate E.
  - destruct pre as [|[b| |] pre]; try discriminate E.
    + simpl. lia.
    + destruct (forced_read_from (S num_read) pre todo count) as [bs r|why] eqn:E';
        try discriminate E.
      inversion E; subst. apply IH in E'. simpl. lia.
Qed.

Lemma forced_read_cut (e : event) (tail pre : list event) (count : nat) :
  e = Alarm \/ e = ReadError ->
  exists k,
    forced_read (pre ++ e :: tail) count
    = match forced_read pre count with
      | Got bs r => Got bs (r ++ e :: tail)
      | NoRead Starved => NoRead (cut_read e k count)
      | NoRead why => NoRead why
      end
    /\ (forced_read pre count = NoRead Starved -> (k < count)%nat).
Proof.
  intros He. exists (length pre). unfold forced_read. split.
  - rewrite forced_read_from_cut by exact He. reflexivity.
  - apply forced_read_from_starved.
Qed.

Section Cut.

Variable T_VERSION : Z.
Variable elapsed : nat -> float.
Variable average_over : Z.

Local Abbreviation iter := (iteration T_VERSION elapsed average_over).
Local Abbreviation loop := (main_loop T_VERSION elapsed average_over).
Local Abbreviation go := (run T_VERSION elapsed average_over).

(** A turn on a source cut short by an alarm or a failed read is the turn on
    what precedes the cut, except that where the latter would block, the
    former meets the cut. *)
Lemma iteration_cut (e : event) (tail : list event) (n : nat) (st : state)
      (pre : list event) :
  e = Alarm \/ e = ReadError ->
  exists k c,
    (k < c)%nat /\ (c = 1 \/ c = 30)%nat
    /\ iter n st (pre ++ e :: tail)
       = match iter n st pre with
         | Next st' em r => Next st' em (r ++ e :: tail)
         | Stop Starved => Stop (cut_read e k c)
         | Stop why => Stop why
         end.
Proof.
  intros He. unfold iteration.
  destruct (forced_read_cut e tail pre 1 He) as (k1 & -> & Hk1).
  destruct (forced_read pre 1) as [ch src1|[| |]];
    [|exists k1, 1%nat; repeat split; auto
     |exists 0%nat, 1%nat; repeat split; auto; lia
     |exists 0%nat, 1%nat; repeat split; auto; lia].
  destruct (negb (byte_val (hd x00 ch) =? 66));
    [exists 0%nat, 1%nat; repeat split; auto; lia|].
  destruct (forced_read_cut e tail src1 1 He) as (k2 & -> & Hk2).
  destruct (forced_read src1 1) as [ch' src2|[| |]];
    [|exists k2, 1%nat; repeat split; auto
     |exists 0%nat, 1%nat; repeat split; auto; lia
     |exists 0%nat, 1%nat; repeat split; auto; lia].
  destruct (negb (byte_val (hd x00 ch') =? 77));
    [exists 0%nat, 1%nat; repeat split; auto; lia|].
  destruct (forced_read_cut e tail src2 sizeof_data He) as (k3 & -> & Hk3).
  destruct (forced_read src2 sizeof_data) as [buf src3|[| |]];
    [|exists k3, 30%nat; repeat split; auto
     |exists 0%nat, 1%nat; repeat split; auto; lia
     |exists 0%nat, 1%nat; repeat split; auto; lia].
  exists 0%nat, 1%nat. repeat split; auto; try lia.
  destruct (negb (length_ok (swapped_words buf))); [reflexivity|].
  destruct (negb (sum_ok (swapped_words buf))); [reflexivity|].
  destruct (average_over =? 0); reflexivity.
Qed.

Lemma main_loop_cut_alarm (tail : list event) (f : nat) :
  forall st out pre,
    (length pre < f)%nat ->
    loop f st out (pre ++ Alarm :: tail)
    = match loop f st out pre with
      | Some (Blocked st' out') =>
        Some (sigalrm_handler T_VERSION elapsed (length out') st' out')
      | o => o
      end.
Proof.
  induction f as [|f IH]; intros st out pre Hf; [lia|].
  rewrite !main_loop_turn.
  destruct (iteration_cut Alarm tail (length out) st pre (or_introl eq_refl))
    as (k & c & _ & _ & ->).
  destruct (iter (length out) st pre) as [st' em r|[| |]] eqn:E; try reflexivity.
  - apply iteration_consumes in E. apply IH. lia.
  - unfold sigalrm_handler. destruct (avg_num st >? 0); reflexivity.
Qed.

Lemma main_loop_cut_error (tail : list event) (f : nat) :
  forall st out pre,
    (length pre < f)%nat ->
    exists k c,
      (k < c)%nat /\ (c = 1 \/ c = 30)%nat
      /\ loop f st out (pre ++ ReadError :: tail)
         = match loop f st out pre with
           | Some (Blocked st' out') =>
             Some (Exited 255 out' [fatal_read k c])
           | o => o
           end.
Proof.
  induction f as [|f IH]; intros st out pre Hf; [lia|].
  destruct (iteration_cut ReadError tail (length out) st pre (or_intror eq_refl))
    as (k & c & Hk & Hc & E').
  destruct (iter (length out) st pre) as [st' em r|[| |]] eqn:E.
  - pose proof (iteration_consumes _ _ _ _ _ _ _ _ _ E) as Hlt.
    assert (length r < f)%nat as Hr by lia.
    destruct (IH st' (out ++ em) r Hr) as (k' & c' & Hk' & Hc' & E'').
    exists k', c'. repeat split; auto.
    rewrite !main_loop_turn, E', E. exact E''.
  - exists k, c. repeat split; auto.
    rewrite !main_loop_turn, E', E. reflexivity.
  - exists k, c. repeat split; auto.
    rewrite !main_loop_turn, E', E. reflexivity.
  - exists k, c. repeat split; auto.
    rewrite !main_loop_turn, E', E.
    unfold sigalrm_handler. destruct (avg_num st >? 0); reflexivity.
Qed.

Lemma run_cut_alarm (st : state) (out : list record) (pre tail : list event) :
  go st out (pre ++ Alarm :: tail)
  = match go st out pre with
    | Some (Blocked st' out') =>
      Some (sigalrm_handler T_VERSION elapsed (length out') st' out')
    | o => o
    end.
Proof.
  unfold run.
  rewrite (main_loop_fuel T_VERSION elapsed average_over
             (S (length pre)) (S (length (pre ++ Alarm :: tail))) st out pre)
    by (rewrite ?length_app; simpl; lia).
  apply main_loop_cut_alarm. rewrite length_app. simpl. lia.
Qed.

(** X3: a SIGALRM that the process takes while it is in a read (the [Alarm]
    of a source) runs the handler on the state that the loop has reached on the
    events read before it, and on the records printed so far; nothing that
    follows it on the line is read, and a run that had exited before is
    unchanged. In particular the bytes of an unfinished turn (a lone 0x42, a
    marker, a part of a block) are not counted. *)
Theorem alarm_flushes_reached_state (st : state) (out : list record)
        (pre tail tail' : list event) :
  go st out (pre ++ Alarm :: tail)
  = match go st out pre with
    | Some (Blocked st' out') =>
      Some (sigalrm_handler T_VERSION elapsed (length out') st' out')
    | o => o
    end
  /\ go st out (pre ++ Alarm :: tail) = go st out (pre ++ Alarm :: tail').
Proof.
  split; [apply run_cut_alarm|].
  rewrite !run_cut_alarm. reflexivity.
Qed.

(** X4: a failed read anywhere in the source ends the run that had blocked
    there with status 255, the records printed so far and one diagnostic; the
    diagnostic names a read of 1 byte or of 30 bytes and fewer bytes got than
    asked for. *)
Theorem read_error_ends_run (st : state) (out : list record)
        (pre tail : list event) :
  exists k c,
    (k < c)%nat /\ (c = 1 \/ c = 30)%nat
    /\ go st out (pre ++ ReadError :: tail)
       = match go st out pre with
         | Some (Blocked st' out') => Some (Exited 255 out' [fatal_read k c])
         | o => o
         end.
Proof.
  unfold run.
  rewrite (main_loop_fuel T_VERSION elapsed average_over
             (S (length pre)) (S (length (pre ++ ReadError :: tail))) st out pre)
    by (rewrite ?length_app; simpl; lia).
  apply main_loop_cut_error. rewrite length_app. simpl. lia.
Qed.

End Cut.

(** ** Runs on bytes alone *)

Lemma forced_read_from_data_only (todo : nat) :
  forall num_read src count,
    Forall is_data src ->
    (exists bs rest, forced_read_from num_read src todo count = Got bs rest
                     /\ Forall is_data rest)
    \/ forced_read_from num_read src todo count = NoRead Starved.
Proof.
  induction todo as [|todo IH]; intros num_read src count Hsrc.
  - left. exists [], src. split; [reflexivity|exact Hsrc].
  - destruct Hsrc as [|e src He Hsrc]; [right; reflexivity|].
    destruct e as [b| |]; try contradiction. cbn [forced_read_from].
    destruct (IH (S num_read) src count Hsrc) as [(bs & rest & -> & Hrest)| ->].
    + left. exists (b :: bs), rest. split; [reflexivity|exact Hrest].
    + right. reflexivity.
Qed.

Section BytesAlone.

Variable T_VERSION : Z.
Variable elapsed : nat -> float.
Variable average_over : Z.

Local Abbreviation iter := (iteration T_VERSION elapsed average_over).
Local Abbreviation loop := (main_loop T_VERSION elapsed average_over).

(** What a turn that goes on has done: nothing, or one measurement folded in
    and, without an averaging window, one record printed. *)
Lemma iteration_next_cases (n : nat) (st st' : state) (src rest : list event)
      (em : list record) :
  iter n st src = Next st' em rest ->
  (st' = st /\ em = [])
  \/ exists buf,
      length buf = 30%nat /\ frame_ok (swapped_words buf) = true
      /\ st' = accumulate st (measurement buf)
      /\ em = if average_over =? 0
              then [print_data T_VERSION (elapsed n) 1 (measurement buf)]
              else [].
Proof.
  unfold iteration. intros E.
  destruct (forced_read src 1) as [ch src1|why]; [|discriminate E].
  destruct (negb (byte_val (hd x00 ch) =? 66));
    [inversion E; subst; left; split; reflexivity|].
  destruct (forced_read src1 1) as [ch' src2|why]; [|discriminate E].
  destruct (negb (byte_val (hd x00 ch') =? 77));
    [inversion E; subst; left; split; reflexivity|].
  destruct (forced_read src2 sizeof_data) as [buf src3|why] eqn:E3;
    [|discriminate E].
  apply forced_read_from_inv in E3. destruct E3 as [_ Hlen].
  destruct (negb (length_ok (swapped_words buf))) eqn:E4;
    [inversion E; subst; left; split; reflexivity|].
  destruct (negb (sum_ok (swapped_words buf))) eqn:E5;
    [inversion E; subst; left; split; reflexivity|].
  apply negb_false_iff in E4. apply negb_false_iff in E5.
  right. exists buf. split; [exact Hlen|]. split.
  - unfold frame_ok. rewrite E4, E5. reflexivity.
  - destruct (average_over =? 0); inversion E; subst; split; reflexivity.
Qed.

Lemma iteration_data_only (n : nat) (st : state) (src : list event) :
  Forall is_data src ->
  (exists st' em rest, iter n st src = Next st' em rest /\ Forall is_data rest)
  \/ iter n st src = Stop Starved.
Proof.
  intros Hsrc. unfold iteration, forced_read.
  destruct (forced_read_from_data_only 1 0 src 1 Hsrc)
    as [(ch & src1 & -> & H1)| ->]; [|right; reflexivity].
  destruct (negb (byte_val (hd x00 ch) =? 66));
    [left; eexists; eexists; eexists; split; [reflexivity|exact H1]|].
  destruct (forced_read_from_data_only 1 0 src1 1 H1)
    as [(ch' & src2 & -> & H2)| ->]; [|right; reflexivity].
  destruct (negb (byte_val (hd x00 ch') =? 77));
    [left; eexists; eexists; eexists; split; [reflexivity|exact H2]|].
  destruct (forced_read_from_data_only sizeof_data 0 src2 sizeof_data H2)
    as [(buf & src3 & -> & H3)| ->]; [|right; reflexivity].
  left.
  destruct (negb (length_ok (swapped_words buf)));
    [eexists; eexists; eexists; split; [reflexivity|exact H3]|].
  destruct (negb (sum_ok (swapped_words buf)));
    [eexists; eexists; eexists; split; [reflexivity|exact H3]|].
  destruct (average_over =? 0);
    eexists; eexists; eexists; (split; [reflexivity|exact H3]).
Qed.

(** On bytes alone the loop blocks in a read, and what every turn keeps
    holds at that point. *)
Lemma main_loop_data_only (P : state -> list record -> Prop) :
  (forall st out src st' em rest,
      P st out -> iter (length out) st src = Next st' em rest ->
      P st' (out ++ em)) ->
  forall f st out src,
    Forall is_data src -> (length src < f)%nat -> P st out ->
    exists st' out', loop f st out src = Some (Blocked st' out') /\ P st' out'.
Proof.
  intros Hstep. induction f as [|f IH]; intros st out src Hsrc Hf HP; [lia|].
  rewrite main_loop_turn.
  destruct (iteration_data_only (length out) st src Hsrc)
    as [(st' & em & rest & E & Hrest)|E]; rewrite E.
  - apply IH.
    + exact Hrest.
    + apply iteration_consumes in E. lia.
    + eapply Hstep; eassumption.
  - exists st, out. split; [reflexivity|exact HP].
Qed.

(** X5: the program has no exit of its own: as long as no read fails and no
    alarm is delivered, whatever the bytes, the run ends blocked in a read (the
    [close] after the loop is never reached). *)
Theorem loop_never_exits_on_bytes (src : list event) :
  Forall is_data src ->
  exists st out,
    main T_VERSION elapsed average_over src = Some (Blocked st out).
Proof.
  intros Hsrc.
  destruct (main_loop_data_only (fun _ _ => True) (fun _ _ _ _ _ _ _ _ => I)
              (S (length src)) initial_state [] src Hsrc (Nat.lt_succ_diag_r _) I)
    as (st & out & E & _).
  exists st, out. exact E.
Qed.

End BytesAlone.

Lemma loop_never_exits_on_bytes_witness :
  Forall is_data (map Data [x42; x4d; x00; x42])
  /\ exists st out,
      main 0 still_clock 60 (map Data [x42; x4d; x00; x42]) = Some (Blocked st out).
Proof.
  assert (Forall is_data (map Data [x42; x4d; x00; x42])) as Hd
      by (repeat constructor).
  split; [exact Hd|].
  exact (loop_never_exits_on_bytes 0 still_clock 60 _ Hd).
Defined.

Section StreamingCount.

Variable T_VERSION : Z.
Variable elapsed : nat -> float.

(** X6: without an averaging window, on bytes alone, the count kept in
    [avg_num] is the number of records printed (modulo 2^64). *)
Theorem streaming_count_is_records_printed (src : list event) :
  Forall is_data src ->
  exists st out,
    main T_VERSION elapsed 0 src = Some (Blocked st out)
    /\ avg_num st = Z.of_nat (length out) mod 2 ^ 64.
Proof.
  intros Hsrc.
  apply (main_loop_data_only T_VERSION elapsed 0
           (fun st out => avg_num st = Z.of_nat (length out) mod 2 ^ 64)).
  - intros st out src' st' em rest HP E.
    apply iteration_next_cases in E.
    destruct E as [[-> ->]|(buf & _ & _ & -> & ->)].
    + rewrite app_nil_r. exact HP.
    + cbn [Z.eqb accumulate avg_num]. rewrite length_app. cbn [length].
      unfold size_t_add, SIZE_MAX1. rewrite HP.
      rewrite Z.add_mod_idemp_l by lia. f_equal. lia.
  - exact Hsrc.
  - lia.
  - reflexivity.
Qed.

End StreamingCount.

Lemma streaming_count_is_records_printed_witness :
  Forall is_data (framed [x42] (scenario_frame x00 x00)
                  ++ framed [] (scenario_frame x00 x01))
  /\ exists st out,
      main 0 still_clock 0 (framed [x42] (scenario_frame x00 x00)
                            ++ framed [] (scenario_frame x00 x01))
      = Some (Blocked st out)
      /\ avg_num st = Z.of_nat (length out) mod 2 ^ 64.
Proof.
  assert (Forall is_data (framed [x42] (scenario_frame x00 x00)
                          ++ framed [] (scenario_frame x00 x01))) as Hd
      by (repeat constructor).
  split; [exact Hd|].
  exact (streaming_count_is_records_printed 0 still_clock _ Hd).
Defined.

(** ** Runs with an averaging window *)

Section WindowShape.

Variable T_VERSION : Z.
Variable elapsed : nat -> float.
Variable average_over : Z.
Hypothesis averaging : average_over <> 0.

Lemma main_loop_window_shape (f : nat) :
  forall st src o,
    main_loop T_VERSION elapsed average_over f st [] src = Some o ->
    match o with
    | Blocked _ out => out = []
    | Exited status out err =>
      (status = 0 /\ (exists rec, out = [rec]) /\ err = [])
      \/ (status = 255 /\ out = [] /\ exists d, err = [d])
    end.
Proof.
  induction f as [|f IH]; intros st src o E; [discriminate E|].
  rewrite main_loop_turn in E.
  destruct (iteration T_VERSION elapsed average_over (length (@nil record)) st src)
    as [st' em rest|[| |]] eqn:Eit.
  - apply iteration_next_cases in Eit.
    assert (em = []) as ->.
    { destruct Eit as [[_ ->]|(buf & _ & _ & _ & ->)]; [reflexivity|].
      apply Z.eqb_neq in averaging. rewrite averaging. reflexivity. }
    apply (IH st' rest o). exact E.
  - inversion E; subst. reflexivity.
  - inversion E; subst. right. repeat split. eexists. reflexivity.
  - inversion E; subst. unfold sigalrm_handler.
    destruct (avg_num st >? 0).
    + left. repeat split. eexists. reflexivity.
    + right. repeat split. eexists. reflexivity.
Qed.

(** X7: with an averaging window, whatever the source, a run prints at most
    one record: none while it is blocked in a read, exactly one when it exits
    with status 0, and none, with one diagnostic, when it exits with status
    255; there is no other exit status. *)
Theorem window_prints_at_most_one_record (src : list event) :
  exists o,
    main T_VERSION elapsed average_over src = Some o
    /\ match o with
       | Blocked _ out => out = []
       | Exited status out err =>
         (status = 0 /\ (exists rec, out = [rec]) /\ err = [])
         \/ (status = 255 /\ out = [] /\ exists d, err = [d])
       end.
Proof.
  destruct (main_total T_VERSION elapsed average_over src) as [o E].
  exists o. split; [exact E|].
  exact (main_loop_window_shape _ _ _ _ E).
Qed.

End WindowShape.

Lemma window_prints_at_most_one_record_witness :
  60 <> 0
  /\ exists o,
      main 1 still_clock 60 (stream pm25_stream ++ [Alarm; ReadError]) = Some o
      /\ match o with
         | Blocked _ out => out = []
         | Exited status out err =>
           (status = 0 /\ (exists rec, out = [rec]) /\ err = [])
           \/ (status = 255 /\ out = [] /\ exists d, err = [d])
         end.
Proof.
  split; [lia|].
  apply (window_prints_at_most_one_record 1 still_clock 60). lia.
Defined.

(** ** Runs without an averaging window *)

Lemma streamed_cons (T_VERSION : Z) (elapsed : nat -> float) (n : nat)
      (m : list float) (ms : list (list float)) :
  streamed T_VERSION elapsed n (m :: ms)
  = print_data T_VERSION (elapsed n) 1 m :: streamed T_VERSION elapsed (S n) ms.
Proof. reflexivity. Qed.

Section StreamingRecords.

Variable T_VERSION : Z.
Variable elapsed : nat -> float.

Lemma run_stream_streaming (fs : list (list byte * list byte)) :
  Forall well_framed fs ->
  forall st out rest,
    run T_VERSION elapsed 0 st out (stream fs ++ rest)
    = run T_VERSION elapsed 0 (accumulated (accepted fs) st)
          (out ++ streamed T_VERSION elapsed (length out) (accepted fs)) rest.
Proof.
  induction 1 as [|f fs (Hg & Hl) _ IH]; intros st out rest.
  - cbn. rewrite app_nil_r. reflexivity.
  - unfold stream. cbn [flat_map]. fold (stream fs).
    rewrite <- app_assoc.
    rewrite (run_framed T_VERSION elapsed 0 st out (fst f) (snd f)) by assumption.
    unfold accepted. cbn [filter].
    destruct (frame_ok (swapped_words (snd f))).
    + cbn [Z.eqb map]. rewrite IH. fold (accepted fs).
      rewrite streamed_cons, length_app, <- app_assoc. cbn [length app].
      rewrite Nat.add_1_r. reflexivity.
    + apply IH.
Qed.

(** X8: without an averaging window, a line that carries blocks behind
    their markers (each after garbage free of 0x42) gives one record for each
    block that passes the two tests and none for the others, in the order of
    arrival, each with 1 as its number of measurements and the clock of its own
    emission; the run then blocks. *)
Theorem streaming_prints_one_record_per_frame
        (fs : list (list byte * list byte)) :
  Forall well_framed fs ->
  main T_VERSION elapsed 0 (stream fs)
  = Some (Blocked (accumulated (accepted fs) initial_state)
                  (map (fun p => print_data T_VERSION (elapsed (fst p)) 1 (snd p))
                       (combine (seq 0 (length (accepted fs))) (accepted fs)))).
Proof.
  intros Hfs. unfold main.
  rewrite <- (app_nil_r (stream fs)).
  rewrite run_stream_streaming by exact Hfs.
  reflexivity.
Qed.

End StreamingRecords.

Lemma streaming_prints_one_record_per_frame_witness :
  Forall well_framed pm25_stream
  /\ main 0 still_clock 0 (stream pm25_stream)
     = Some (Blocked (accumulated (accepted pm25_stream) initial_state)
                     (map (fun p => print_data 0 (still_clock (fst p)) 1 (snd p))
                          (combine (seq 0 (length (accepted pm25_stream)))
                                   (accepted pm25_stream)))).
Proof.
  assert (Forall well_framed pm25_stream) as Hfs.
  { repeat constructor; simpl; vm_compute; lia. }
  split; [exact Hfs|].
  exact (streaming_prints_one_record_per_frame 0 still_clock pm25_stream Hfs).
Defined.

(** ** More on validation *)

Lemma wire_sum_app (l1 l2 : list byte) :
  wire_sum (l1 ++ l2) = wire_sum l1 + wire_sum l2.
Proof.
  unfold wire_sum. induction l1 as [|a l1 IH]; cbn [app fold_right]; lia.
Qed.

Lemma wire_sum_permutation (l1 l2 : list byte) :
  Permutation l1 l2 -> wire_sum l1 = wire_sum l2.
Proof.
  unfold wire_sum. induction 1; cbn [fold_right]; lia.
Qed.

(** X9: replacing any one of the 30 bytes of an accepted block by a different
    byte, the two bytes of the checksum word included, gives a block that is
    rejected. *)
Theorem any_single_byte_corruption_rejected (buf : list byte) (i : nat)
        (b : byte) :
  length buf = 30%nat ->
  frame_ok (swapped_words buf) = true ->
  (i < 30)%nat ->
  b <> nth i buf x00 ->
  frame_ok (swapped_words (corrupt buf i b)) = false.
Proof.
  intros H Hok Hi Hb.
  assert (length (corrupt buf i b) = 30%nat) as H'
      by (rewrite corrupt_length; lia).
  assert (byte_val b <> byte_val (nth i buf x00)) as Hv
      by (intros E; apply byte_val_inj in E; contradiction).
  rewrite (frame_ok_wire_valid _ H'). rewrite (frame_ok_wire_valid buf H) in Hok.
  unfold wire_valid in *. apply andb_true_iff in Hok. destruct Hok as [_ Hc].
  apply Z.eqb_eq in Hc. apply andb_false_iff. right. apply Z.eqb_neq.
  rewrite !wire_checksum_small in *.
  destruct (Nat.ltb_spec i 28) as [Hlow|Hhigh].
  - rewrite wire_field_corrupt_14 by assumption. rewrite Hc.
    rewrite wire_sum_firstn_corrupt by lia. lia.
  - destruct (explode_30 buf H) as
        (a0 & a1 & a2 & a3 & a4 & a5 & a6 & a7 & a8 & a9 & a10 & a11 & a12
         & a13 & a14 & a15 & a16 & a17 & a18 & a19 & a20 & a21 & a22 & a23
         & a24 & a25 & a26 & a27 & a28 & a29 & ->).
    assert (i = 28 \/ i = 29)%nat as [-> | ->] by lia;
      unfold wire_field, be16, wire_sum in *;
      cbn [corrupt firstn skipn app nth Nat.mul Nat.add fold_right] in *;
      lia.
Qed.

Lemma any_single_byte_corruption_rejected_witness :
  length (scenario_frame x00 x00) = 30%nat
  /\ frame_ok (swapped_words (scenario_frame x00 x00)) = true
  /\ (29 < 30)%nat
  /\ x1d <> nth 29 (scenario_frame x00 x00) x00
  /\ frame_ok (swapped_words (corrupt (scenario_frame x00 x00) 29 x1d)) = false.
Proof.
  split; [reflexivity|]. split; [vm_compute; reflexivity|].
  split; [lia|]. split; [vm_compute; discriminate|].
  apply (any_single_byte_corruption_rejected (scenario_frame x00 x00) 29 x1d).
  - reflexivity.
  - vm_compute. reflexivity.
  - lia.
  - vm_compute. discriminate.
Defined.

(** X10: the two tests do not see the order of the 26 bytes between the
    length word and the checksum word: a block passes them exactly when the
    block with these bytes in any other order does. *)
Theorem tests_blind_to_byte_order (hdr body body' trailer : list byte) :
  length hdr = 2%nat ->
  length body = 26%nat ->
  length trailer = 2%nat ->
  Permutation body body' ->
  frame_ok (swapped_words (hdr ++ body' ++ trailer))
  = frame_ok (swapped_words (hdr ++ body ++ trailer)).
Proof.
  intros Hh Hb Ht Hp.
  assert (length body' = 26%nat) as Hb'
      by (rewrite <- (Permutation_length Hp); exact Hb).
  assert (forall bd, length bd = 26%nat ->
                     wire_valid (hdr ++ bd ++ trailer)
                     = (wire_field hdr 0 =? 28)
                       && (wire_field trailer 0
                           =? 0x42 + 0x4d + (wire_sum hdr + wire_sum bd))) as E.
  { intros bd Hbd. unfold wire_valid. rewrite wire_checksum_small.
    assert (wire_field (hdr ++ bd ++ trailer) 0 = wire_field hdr 0) as ->.
    { unfold wire_field. rewrite !app_nth1 by (rewrite Hh; simpl; lia).
      reflexivity. }
    assert (wire_field (hdr ++ bd ++ trailer) 14 = wire_field trailer 0) as ->.
    { unfold wire_field. rewrite !app_assoc.
      rewrite !app_nth2 by (rewrite length_app, Hh, Hbd; simpl; lia).
      rewrite length_app, Hh, Hbd. reflexivity. }
    assert (firstn 28 (hdr ++ bd ++ trailer) = hdr ++ bd) as ->.
    { assert (length (hdr ++ bd) = 28%nat) as L
          by (rewrite length_app, Hh, Hbd; reflexivity).
      rewrite app_assoc, firstn_app, L, Nat.sub_diag, firstn_O, app_nil_r.
      apply firstn_all2. lia. }
    rewrite wire_sum_app. reflexivity. }
  rewrite !frame_ok_wire_valid by (rewrite !length_app; lia).
  rewrite (E body Hb), (E body' Hb').
  rewrite (wire_sum_permutation body body' Hp). reflexivity.
Qed.

Lemma tests_blind_to_byte_order_witness :
  length [x00; x1c] = 2%nat
  /\ length (skipn 2 (scenario_body x00 x00)) = 26%nat
  /\ length [x02; x1c] = 2%nat
  /\ Permutation (skipn 2 (scenario_body x00 x00))
                 (rev (skipn 2 (scenario_body x00 x00)))
  /\ frame_ok (swapped_words ([x00; x1c] ++ rev (skipn 2 (scenario_body x00 x00))
                                ++ [x02; x1c]))
     = frame_ok (swapped_words ([x00; x1c] ++ skipn 2 (scenario_body x00 x00)
                                  ++ [x02; x1c])).
Proof.
  split; [reflexivity|]. split; [reflexivity|]. split; [reflexivity|].
  split; [apply Permutation_rev|].
  apply (tests_blind_to_byte_order [x00; x1c] (skipn 2 (scenario_body x00 x00))
           (rev (skipn 2 (scenario_body x00 x00))) [x02; x1c]);
    try reflexivity.
  apply Permutation_rev.
Defined.

(** ** Decoding is exact *)

Lemma all_below_spec (f : Z -> bool) (n : nat) :
  forall z, all_below n z f = true ->
            forall i, 0 <= i < 2 ^ Z.of_nat n ->
                      f (z * 2 ^ Z.of_nat n + i) = true.
Proof.
  induction n as [|n IH]; intros z Hall i Hi.
  - simpl in *. replace (z * 1 + i) with z by lia. exact Hall.
  - cbn [all_below] in Hall. apply andb_true_iff in Hall.
    destruct Hall as [H0 H1].
    rewrite Nat2Z.inj_succ, Z.pow_succ_r in * by lia.
    destruct (Z.ltb_spec i (2 ^ Z.of_nat n)).
    + replace (z * (2 * 2 ^ Z.of_nat n) + i)
        with (2 * z * 2 ^ Z.of_nat n + i) by lia.
      apply IH; [exact H0|lia].
    + replace (z * (2 * 2 ^ Z.of_nat n) + i)
        with ((2 * z + 1) * 2 ^ Z.of_nat n + (i - 2 ^ Z.of_nat n)) by lia.
      apply IH; [exact H1|lia].
Qed.

(** The conversion of an [unsigned short] to [double] loses nothing. *)
Lemma double_of_Z_exact (z : Z) :
  0 <= z < 65536 -> Z_of_double (double_of_Z z) = z.
Proof.
  intros Hz.
  assert (all_below 16 0 (fun z => Z_of_double (double_of_Z z) =? z) = true)
    as Hall by (vm_compute; reflexivity).
  apply (all_below_spec _ 16 0 Hall z) in Hz. simpl in Hz.
  apply Z.eqb_eq. exact Hz.
Qed.

(** X11: every field of the measurement decoded from a block is exactly the
    big-endian value of its two wire bytes: converted back to an integer it
    gives that value, for each of the twelve fields. *)
Theorem decoded_fields_are_exact (buf : list byte) (i : nat) :
  length buf = 30%nat ->
  (i < 12)%nat ->
  Z_of_double (nth i (measurement buf) 0%float) = wire_field buf (i + 1)
  /\ 0 <= wire_field buf (i + 1) <= 65535.
Proof.
  intros H Hi. pose proof (be16_range (nth (2 * (i + 1)) buf x00)
                                      (nth (2 * (i + 1) + 1) buf x00)) as R.
  fold (wire_field buf (i + 1)) in R. split; [|exact R].
  rewrite (measurement_big_endian buf H), nth_map_seq by exact Hi.
  apply double_of_Z_exact. lia.
Qed.

Lemma decoded_fields_are_exact_witness :
  length (scenario_frame x00 x00) = 30%nat
  /\ (10 < 12)%nat
  /\ Z_of_double (nth 10 (measurement (scenario_frame x00 x00)) 0%float) = 200.
Proof.
  split; [reflexivity|]. split; [lia|].
  destruct (decoded_fields_are_exact (scenario_frame x00 x00) 10 eq_refl)
    as [E _]; [lia|].
  rewrite E. reflexivity.
Defined.

(** ** The settings of the serial line *)

Lemma land_zero_bits (a b n : Z) :
  Z.land a b = 0 -> Z.testbit a n && Z.testbit b n = false.
Proof.
  intros E. rewrite <- Z.land_spec, E. apply Z.bits_0.
Qed.

Lemma land_self_bits (a b n : Z) :
  Z.land a b = a -> Z.testbit a n = true -> Z.testbit b n = true.
Proof.
  intros E Ha. rewrite <- E, Z.land_spec in Ha.
  apply andb_true_iff in Ha. apply Ha.
Qed.

Lemma high_bits_32 (a n : Z) :
  0 <= a < 2 ^ 32 -> 32 <= n -> Z.testbit a n = false.
Proof.
  intros Ha Hn. rewrite <- (Z.mod_small a (2 ^ 32)) by exact Ha.
  apply Z.mod_pow2_bits_high. lia.
Qed.

(** Reading a bit of an expression of flags. *)
Ltac flag_bits :=
  unfold flag_set, flag_clear, tcflag;
  repeat first [ rewrite Z.testbit_mod_pow2 by lia
               | rewrite Z.land_spec
               | rewrite Z.lor_spec
               | rewrite Z.lnot_spec by lia
               | rewrite Z.bits_0 ].

(** Deciding an equation between bits by cases. *)
Ltac bit_cases :=
  repeat match goal with
         | |- context [Z.testbit ?a ?n] => destruct (Z.testbit a n)
         end;
  repeat match goal with
         | |- context [?n <? 32] => destruct (n <? 32)
         end;
  reflexivity.

Section Settings.

Variable H : termios_h.

Local Infix "|'" := Z.lor (at level 50, left associativity).

(** X12: on a platform with the usual layout of [c_cflag], the settings the
    program installs ask for 8 data bits, no parity, one stop bit, no hardware
    flow control, with the receiver enabled and the modem lines ignored,
    whatever the settings were. *)
Theorem raw_8n1_frame_format (tty : termios) :
  cflag_layout H ->
  Z.land (c_cflag (raw_8n1 H tty)) (CSIZE H) = CS8 H
  /\ Z.land (c_cflag (raw_8n1 H tty)) (CLOCAL H |' CREAD H)
     = CLOCAL H |' CREAD H
  /\ Z.land (c_cflag (raw_8n1 H tty)) (PARENB H) = 0
  /\ Z.land (c_cflag (raw_8n1 H tty)) (CSTOPB H) = 0
  /\ Z.land (c_cflag (raw_8n1 H tty)) (CRTSCTS H) = 0.
Proof.
  intros (R8 & RL & Hsub & Hd8 & HdL).
  cbn [raw_8n1 c_cflag].
  repeat split; apply Z.bits_inj'; intros n Hn;
    pose proof (land_zero_bits _ _ n Hd8) as F8;
    pose proof (land_zero_bits _ _ n HdL) as FL;
    pose proof (land_self_bits _ _ n Hsub) as Fs;
    repeat rewrite Z.lor_spec in F8; repeat rewrite Z.lor_spec in FL;
    flag_bits;
    (destruct (Z.ltb_spec n 32) as [Hlt|Hge];
     [|pose proof (high_bits_32 _ n R8 Hge) as G8;
       pose proof (high_bits_32 _ n RL Hge) as GL;
       repeat rewrite Z.lor_spec in GL]);
    destruct (Z.testbit (c_cflag tty) n), (Z.testbit (CLOCAL H) n),
      (Z.testbit (CREAD H) n), (Z.testbit (CSIZE H) n),
      (Z.testbit (CS8 H) n), (Z.testbit (PARENB H) n),
      (Z.testbit (CSTOPB H) n), (Z.testbit (CRTSCTS H) n);
    cbn in *; try reflexivity; try congruence;
    try (specialize (Fs eq_refl); congruence).
Qed.

End Settings.

Lemma raw_8n1_frame_format_witness :
  cflag_layout linux_termios_h
  /\ Z.land (c_cflag (raw_8n1 linux_termios_h
                              (mkTermios 1280 5 3261 35387 (fun _ => 0))))
            (CSIZE linux_termios_h)
     = CS8 linux_termios_h.
Proof.
  assert (cflag_layout linux_termios_h) as L
      by (unfold cflag_layout; cbn; repeat split; lia).
  split; [exact L|].
  apply (raw_8n1_frame_format linux_termios_h
           (mkTermios 1280 5 3261 35387 (fun _ => 0)) L).
Defined.

Section RawMode.

Variable H : termios_h.

Local Infix "|'" := Z.lor (at level 50, left associativity).

(** X13: the settings the program installs are those of a raw line: no
    echo, no canonical mode, no signal characters, no extended input
    processing; no break, parity-mark, strip, newline or carriage-return
    translation and no XON/XOFF on input; no output processing; and a read
    returns as soon as 1 byte is there ([VMIN] and [VTIME] both 1). *)
Theorem raw_8n1_is_raw (tty : termios) :
  (forall f, In f [ECHO H; ECHONL H; ICANON H; ISIG H; IEXTEN H] ->
             Z.land (c_lflag (raw_8n1 H tty)) f = 0)
  /\ (forall f, In f [IGNBRK H; BRKINT H; PARMRK H; ISTRIP H; INLCR H;
                      IGNCR H; ICRNL H; IXON H] ->
                Z.land (c_iflag (raw_8n1 H tty)) f = 0)
  /\ Z.land (c_oflag (raw_8n1 H tty)) (OPOST H) = 0
  /\ c_cc (raw_8n1 H tty) (VMIN H) = 1
  /\ c_cc (raw_8n1 H tty) (VTIME H) = 1.
Proof.
  cbn [raw_8n1 c_lflag c_iflag c_oflag c_cc].
  split; [|split; [|split; [|split]]].
  - intros f Hf. cbn [In] in Hf.
    repeat (destruct Hf as [<- | Hf];
            [apply Z.bits_inj'; intros n Hn; flag_bits; bit_cases|]).
    contradiction.
  - intros f Hf. cbn [In] in Hf.
    repeat (destruct Hf as [<- | Hf];
            [apply Z.bits_inj'; intros n Hn; flag_bits; bit_cases|]).
    contradiction.
  - apply Z.bits_inj'; intros n Hn; flag_bits; bit_cases.
  - rewrite Nat.eqb_refl. destruct (Nat.eqb (VMIN H) (VTIME H)); reflexivity.
  - rewrite Nat.eqb_refl. reflexivity.
Qed.

(** X14: the program changes only the bits it names: every other bit of
    the four flag words, and every control character other than [VMIN] and
    [VTIME], keeps the value it had. *)
Theorem raw_8n1_keeps_other_bits (tty : termios) (n : Z) :
  0 <= n < 32 ->
  (Z.testbit (CLOCAL H |' CREAD H |' CSIZE H |' CS8 H |' PARENB H |' CSTOPB H
              |' CRTSCTS H) n = false ->
   Z.testbit (c_cflag (raw_8n1 H tty)) n = Z.testbit (c_cflag tty) n)
  /\ (Z.testbit (IGNBRK H |' BRKINT H |' PARMRK H |' ISTRIP H |' INLCR H
                 |' IGNCR H |' ICRNL H |' IXON H) n = false ->
      Z.testbit (c_iflag (raw_8n1 H tty)) n = Z.testbit (c_iflag tty) n)
  /\ (Z.testbit (ECHO H |' ECHONL H |' ICANON H |' ISIG H |' IEXTEN H) n = false ->
      Z.testbit (c_lflag (raw_8n1 H tty)) n = Z.testbit (c_lflag tty) n)
  /\ (Z.testbit (OPOST H) n = false ->
      Z.testbit (c_oflag (raw_8n1 H tty)) n = Z.testbit (c_oflag tty) n)
  /\ (forall i, i <> VMIN H -> i <> VTIME H ->
                c_cc (raw_8n1 H tty) i = c_cc tty i).
Proof.
  intros Hn. cbn [raw_8n1 c_lflag c_iflag c_oflag c_cflag c_cc].
  assert ((n <? 32) = true) as Hlt by (apply Z.ltb_lt; lia).
  split; [|split; [|split; [|split]]].
  - intros Hm. repeat rewrite Z.lor_spec in Hm.
    repeat (apply orb_false_iff in Hm; destruct Hm as [Hm ?]).
    flag_bits. rewrite Hlt.
    repeat match goal with E : Z.testbit _ n = false |- _ => rewrite E; clear E end.
    destruct (Z.testbit (c_cflag tty) n); reflexivity.
  - intros Hm. repeat rewrite Z.lor_spec in Hm.
    repeat (apply orb_false_iff in Hm; destruct Hm as [Hm ?]).
    flag_bits. rewrite Hlt.
    repeat match goal with E : Z.testbit _ n = false |- _ => rewrite E; clear E end.
    destruct (Z.testbit (c_iflag tty) n); reflexivity.
  - intros Hm. repeat rewrite Z.lor_spec in Hm.
    repeat (apply orb_false_iff in Hm; destruct Hm as [Hm ?]).
    flag_bits. rewrite Hlt.
    repeat match goal with E : Z.testbit _ n = false |- _ => rewrite E; clear E end.
    destruct (Z.testbit (c_lflag tty) n); reflexivity.
  - intros Hm. flag_bits. rewrite Hlt, Hm.
    destruct (Z.testbit (c_oflag tty) n); reflexivity.
  - intros i Hi1 Hi2.
    apply Nat.eqb_neq in Hi1. apply Nat.eqb_neq in Hi2.
    rewrite Hi1, Hi2. reflexivity.
Qed.

(** X15: installing the settings twice is installing them once. *)
Theorem raw_8n1_idempotent (tty : termios) :
  c_cflag (raw_8n1 H (raw_8n1 H tty)) = c_cflag (raw_8n1 H tty)
  /\ c_iflag (raw_8n1 H (raw_8n1 H tty)) = c_iflag (raw_8n1 H tty)
  /\ c_lflag (raw_8n1 H (raw_8n1 H tty)) = c_lflag (raw_8n1 H tty)
  /\ c_oflag (raw_8n1 H (raw_8n1 H tty)) = c_oflag (raw_8n1 H tty)
  /\ (forall i, c_cc (raw_8n1 H (raw_8n1 H tty)) i = c_cc (raw_8n1 H tty) i).
Proof.
  cbn [raw_8n1 c_lflag c_iflag c_oflag c_cflag c_cc].
  split; [|split; [|split; [|split]]].
  - apply Z.bits_inj'; intros n Hn; flag_bits; bit_cases.
  - apply Z.bits_inj'; intros n Hn; flag_bits; bit_cases.
  - apply Z.bits_inj'; intros n Hn; flag_bits; bit_cases.
  - apply Z.bits_inj'; intros n Hn; flag_bits; bit_cases.
  - intros i. destruct (Nat.eqb i (VTIME H)), (Nat.eqb i (VMIN H)); reflexivity.
Qed.

End RawMode.

Lemma raw_8n1_keeps_other_bits_witness :
  0 <= 9 < 32
  /\ Z.testbit (c_cflag (raw_8n1 linux_termios_h
                                 (mkTermios 1280 5 3261 35387 (fun _ => 0)))) 9
     = Z.testbit 3261 9.
Proof.
  split; [lia|].
  destruct (raw_8n1_keeps_other_bits linux_termios_h
              (mkTermios 1280 5 3261 35387 (fun _ => 0)) 9) as [K _]; [lia|].
  apply K. reflexivity.
Defined.

(** ** The set-up of [main] *)

Lemma int_to_size_t_to_uint (a : Z) :
  - 2 ^ 31 <= a < 2 ^ 31 ->
  (0 <= a -> a mod 2 ^ 64 = a /\ (a mod 2 ^ 64) mod 2 ^ 32 = a)
  /\ (a < 0 -> a mod 2 ^ 64 = 2 ^ 64 + a
               /\ (a mod 2 ^ 64) mod 2 ^ 32 = 2 ^ 32 + a).
Proof.
  intros Ha. split; intros Hs.
  - rewrite !Z.mod_small by lia. split; reflexivity.
  - assert (a mod 2 ^ 64 = 2 ^ 64 + a) as ->
        by (symmetry; apply (Z.mod_unique a (2 ^ 64) (-1)); lia).
    split; [reflexivity|].
    symmetry. apply (Z.mod_unique (2 ^ 64 + a) (2 ^ 32) (2 ^ 32 - 1)); lia.
Qed.

Section Startup.

Variable H : termios_h.
Variable cfsetospeed : termios -> Z -> termios.
Variable cfsetispeed : termios -> Z -> termios.

(** X16: when the loop is entered, the alarm is pending exactly when the loop
    averages ([average_over] is not 0), and then the handler is installed. A
    window argument n >= 0 gives a window of n seconds (0: no window, even
    with three arguments); a negative n gives [average_over] = 2^64 + n and an
    alarm after 2^32 + n seconds. *)
Theorem startup_alarm_matches_mode (inv : invocation) (average_over secs : Z)
        (handler : bool) (tty : termios) :
  - 2 ^ 31 <= atoi_argv2 inv < 2 ^ 31 ->
  startup H cfsetospeed cfsetispeed inv = Started average_over secs handler tty ->
  (average_over <> 0 <-> secs <> 0)
  /\ (average_over <> 0 -> handler = true /\ argc inv = 3)
  /\ (argc inv = 2 -> average_over = 0)
  /\ (argc inv = 3 -> 0 <= atoi_argv2 inv ->
      average_over = atoi_argv2 inv /\ secs = atoi_argv2 inv)
  /\ (argc inv = 3 -> atoi_argv2 inv < 0 ->
      average_over = 2 ^ 64 + atoi_argv2 inv /\ secs = 2 ^ 32 + atoi_argv2 inv).
Proof.
  intros Ha E. unfold startup in E.
  destruct (negb (argc inv =? 2) && negb (argc inv =? 3)); [discriminate E|].
  destruct (open_fd inv <? 0); [discriminate E|].
  destruct (set_interface_attribs H cfsetospeed cfsetispeed
              (tcgetattr_result inv) (tcsetattr_result inv) (B9600 H))
    as [s e|tty']; [discriminate E|].
  destruct (int_to_size_t_to_uint (atoi_argv2 inv) Ha) as [Hpos Hneg].
  unfold SIZE_MAX1 in E.
  destruct (Z.eqb_spec (argc inv) 3) as [H3|H3]; inversion E; subst; clear E;
    change (Z.pow_pos 2 64) with (2 ^ 64) in *;
    change (Z.pow_pos 2 32) with (2 ^ 32) in *.
  - destruct (Z.lt_ge_cases (atoi_argv2 inv) 0) as [Hs|Hs].
    + destruct (Hneg Hs) as [E1 E2]. rewrite E2, E1. repeat split; try lia.
    + destruct (Hpos Hs) as [E1 E2]. rewrite E2, E1. repeat split; try lia.
  - repeat split; try lia; try congruence.
Qed.

(** X17: every failure of the set-up exits with status 255, and its
    diagnostic names the step that failed: the usage line for a wrong number
    of arguments, then [open], then [tcgetattr], then [tcsetattr] on the raw
    settings at 9600 baud. *)
Theorem startup_failure_names_its_cause (inv : invocation) (status : Z)
        (err : startup_diagnostic) :
  startup H cfsetospeed cfsetispeed inv = StartupExit status err ->
  status = 255
  /\ match err with
     | usage => argc inv <> 2 /\ argc inv <> 3
     | fatal_open => (argc inv = 2 \/ argc inv = 3) /\ open_fd inv < 0
     | fatal_tcgetattr =>
       (argc inv = 2 \/ argc inv = 3) /\ 0 <= open_fd inv
       /\ tcgetattr_result inv = None
     | fatal_tcsetattr =>
       (argc inv = 2 \/ argc inv = 3) /\ 0 <= open_fd inv
       /\ exists tty,
           tcgetattr_result inv = Some tty
           /\ tcsetattr_result inv
                (raw_8n1 H (cfsetispeed (cfsetospeed tty (tcflag (B9600 H)))
                                        (tcflag (B9600 H)))) <> 0
     end.
Proof.
  unfold startup, set_interface_attribs. intros E.
  destruct (negb (argc inv =? 2) && negb (argc inv =? 3)) eqn:Eargs.
  { inversion E; subst. split; [reflexivity|].
    apply andb_true_iff in Eargs. rewrite !negb_true_iff, !Z.eqb_neq in Eargs.
    exact Eargs. }
  assert (argc inv = 2 \/ argc inv = 3) as Hargc.
  { apply andb_false_iff in Eargs.
    rewrite !negb_false_iff, !Z.eqb_eq in Eargs. exact Eargs. }
  destruct (Z.ltb_spec (open_fd inv) 0) as [Ho|Ho].
  { inversion E; subst. split; [reflexivity|]. split; assumption. }
  destruct (tcgetattr_result inv) as [tty|].
  2:{ inversion E; subst. split; [reflexivity|]. repeat split; assumption. }
  destruct (Z.eqb_spec
              (tcsetattr_result inv
                 (raw_8n1 H (cfsetispeed (cfsetospeed tty (tcflag (B9600 H)))
                                         (tcflag (B9600 H))))) 0)
    as [Hs|Hs]; cbn [negb] in E; [discriminate E|].
  inversion E; subst. split; [reflexivity|].
  split; [exact Hargc|]. split; [exact Ho|].
  exists tty. split; [reflexivity|exact Hs].
Qed.

End Startup.

Lemma startup_alarm_matches_mode_witness :
  - 2 ^ 31 <= -1 < 2 ^ 31
  /\ startup linux_termios_h (fun t _ => t) (fun t _ => t)
             (mkInvocation 3 (-1) 3
                           (Some (mkTermios 1280 5 3261 35387 (fun _ => 0)))
                           (fun _ => 0))
     = Started (2 ^ 64 - 1) (2 ^ 32 - 1) true
               (raw_8n1 linux_termios_h
                        (mkTermios 1280 5 3261 35387 (fun _ => 0)))
  /\ (2 ^ 64 - 1 <> 0 <-> 2 ^ 32 - 1 <> 0).
Proof.
  split; [lia|]. split; [reflexivity|].
  apply (startup_alarm_matches_mode linux_termios_h (fun t _ => t) (fun t _ => t)
           (mkInvocation 3 (-1) 3
                         (Some (mkTermios 1280 5 3261 35387 (fun _ => 0)))
                         (fun _ => 0))
           (2 ^ 64 - 1) (2 ^ 32 - 1) true
           (raw_8n1 linux_termios_h (mkTermios 1280 5 3261 35387 (fun _ => 0)))).
  - cbn [atoi_argv2]. lia.
  - reflexivity.
Defined.

Lemma startup_failure_names_its_cause_witness :
  startup linux_termios_h (fun t _ => t) (fun t _ => t)
          (mkInvocation 3 60 (-1) None (fun _ => 0))
  = StartupExit 255 fatal_open
  /\ (3 = 2 \/ 3 = 3) /\ -1 < 0.
Proof.
  split; [reflexivity|].
  apply (startup_failure_names_its_cause linux_termios_h (fun t _ => t)
           (fun t _ => t) (mkInvocation 3 60 (-1) None (fun _ => 0))
           255 fatal_open).
  reflexivity.
Defined.

(** ** The flush at a read, on any line *)






Section FlushAtRead.

Variable T_VERSION : Z.
Variable elapsed : nat -> float.
Variable average_over : Z.
Hypothesis averaging : average_over <> 0.

Local Abbreviation go := (run T_VERSION elapsed average_over).



Local Open Scope string_scope.


End FlushAtRead.

Local Open Scope string_scope.



Local Close Scope string_scope.

(** ** The flush during an update *)

Section FlushDuringUpdate.

Variable T_VERSION : Z.
Variable elapsed : nat -> float.

Local Open Scope string_scope.


End FlushDuringUpdate.

